(** * filealloc: a bitmap block allocator inside a file

    Shallow embedding of the Go packages [bitmap] (the bit-level
    primitives) and [filealloc] (the chunked page allocator), and the
    properties of the specification checked against them.

    Conventions.
    - [int64]/[int] values are [Z]; every arithmetic step of the source that
      can leave the 64-bit range is written with its wrap-around
      ([wrap64], [add64], [sub64], ...).
    - a [byte] is [Byte.byte]; byte arithmetic goes through [u8]/[byte_of]
      (truncation to 8 bits).
    - a [[]byte] is a [list byte]; an index out of range is a run-time
      panic, modelled by [None] in the bitmap package and by [Panic] in the
      allocator.
    - slot [s] of a bitmap is bit [7 - s mod 8] of byte [s / 8]. *)

From Stdlib Require Import ZArith Lia Bool List.
From Stdlib.Strings Require Import Byte.
From stdpp Require Import base option list.
Import ListNotations.

Local Open Scope Z_scope.

(** ** Machine integers *)

Definition max_int64 : Z := 2 ^ 63 - 1.
Definition min_int64 : Z := - 2 ^ 63.

(** Two's complement wrap-around of a mathematical integer into [int64]. *)
Definition wrap64 (x : Z) : Z := (x + 2 ^ 63) mod 2 ^ 64 - 2 ^ 63.

Definition add64 (a b : Z) : Z := wrap64 (a + b).
Definition sub64 (a b : Z) : Z := wrap64 (a - b).
Definition mul64 (a b : Z) : Z := wrap64 (a * b).

(** [x << s] on [int64] for a shift count [s >= 0]: the bits shifted out are
    lost; a count of 64 or more leaves zero. *)
Definition shl64 (x s : Z) : Z :=
  if 64 <=? s then 0 else wrap64 (Z.shiftl x s).

(** [x >> s] on [int64] (arithmetic shift). *)
Definition shr64 (x s : Z) : Z := Z.shiftr x s.

(** Wrap-around into [uint8]. *)
Definition wrap8 (x : Z) : Z := x mod 256.

(** Wrap-around into [uint] (64 bits), for the shift counts [8 - lng]. *)
Definition wrapU64 (x : Z) : Z := x mod 2 ^ 64.

(** ** Bytes *)

Definition u8 (b : byte) : Z := Z.of_N (Byte.to_N b).

Definition byte_of (z : Z) : byte :=
  match Byte.of_N (Z.to_N (z mod 256)) with
  | Some b => b
  | None => x00
  end.

Definition byte_eqb (a b : byte) : bool := u8 a =? u8 b.

(** [b << s] and [b >> s] on a [byte], [s] an unsigned count. *)
Definition shl8 (b : byte) (s : Z) : byte :=
  if 8 <=? s then x00 else byte_of (Z.shiftl (u8 b) s).
Definition shr8 (b : byte) (s : Z) : byte :=
  if 8 <=? s then x00 else byte_of (Z.shiftr (u8 b) s).
Definition band (a b : byte) : byte := byte_of (Z.land (u8 a) (u8 b)).
Definition bor (a b : byte) : byte := byte_of (Z.lor (u8 a) (u8 b)).
(** [^b] *)
Definition bnot (b : byte) : byte := byte_of (Z.lxor (u8 b) 255).

(** [len(bm)] *)
Definition len {A} (l : list A) : Z := Z.of_nat (length l).

(** [bm[i]] with the bounds check of the run time. *)
Definition at_index {A} (l : list A) (i : Z) : option A :=
  if (i <? 0) || (len l <=? i) then None else l !! Z.to_nat i.

(** [bm[i] = v] with the bounds check of the run time. *)
Definition set_index {A} (l : list A) (i : Z) (v : A) : option (list A) :=
  if (i <? 0) || (len l <=? i) then None else Some (<[Z.to_nat i := v]> l).

(** Slot [s] of the bitmap: bit [7 - s mod 8] of byte [s / 8]; [true] is
    occupied.  Outside the buffer there is no slot ([false]). *)
Definition slot (bm : list byte) (s : Z) : bool :=
  match at_index bm (s / 8) with
  | Some c => Z.testbit (u8 c) (7 - s mod 8)
  | None => false
  end.

(** Number of slots of a buffer. *)
Definition slots (bm : list byte) : Z := 8 * len bm.

(** A Go slice a program can hold: its slot count [len(bm)*8] is an [int]. *)
Definition slice_ok (bm : list byte) : Prop := slots bm <= max_int64.

(** ** Package bitmap *)

Module Bitmap.

(** The inner loop shared by [findFreeSpot8] and [FindFreeSpot]:
<<
    i := uint(8)
    for ; i>0; i-- { if (c & b)==0 { break }; b>>=1 }
>>
    returns the final [i]. *)
Fixpoint scan (c b : byte) (i : nat) : nat :=
  match i with
  | O => O
  | S i' => if byte_eqb (band c b) x00 then i else scan c (shr8 b 1) i'
  end.

(** [int64(j<<3) | int64(8-i)] *)
Definition spot (j : Z) (i : nat) : Z :=
  Z.lor (wrap64 (Z.shiftl j 3)) (wrap64 (wrapU64 (8 - Z.of_nat i))).

(** The loop [for j,c := range bm] of [findFreeSpot8], at index [j] with
    [rest] the bytes not yet visited. *)
Fixpoint findFreeSpot8_loop (bm : list byte) (lng : Z) (B : byte)
    (j : Z) (rest : list byte) : option (Z * bool) :=
  match rest with
  | [] => Some (0, false)
  | c :: rest' =>
      let i := scan c B 8 in
      if lng <=? Z.of_nat i then Some (spot j i, true)
      else if (0 <? Z.of_nat i) && (j <? len bm - 1) then
        let b := shl8 B (wrapU64 (8 - Z.of_nat i)) in
        c' ← at_index bm (j + 1);
        if byte_eqb (band c' b) x00 then Some (spot j i, true)
        else findFreeSpot8_loop bm lng B (j + 1) rest'
      else findFreeSpot8_loop bm lng B (j + 1) rest'
  end.

Definition findFreeSpot8 (bm : list byte) (lng : Z) : option (Z * bool) :=
  let B := shl8 xff (wrapU64 (8 - lng)) in
  findFreeSpot8_loop bm lng B 0 bm.

(** The loop [for j := n; j>0; j--] of [matchAligned]: [Some bipos'] when
    the [j] bytes from [bipos] are all zero, [Some None] on the first
    non-zero byte. *)
Fixpoint matchAligned_loop (bm : list byte) (bipos : Z) (j : nat)
    : option (option Z) :=
  match j with
  | O => Some (Some bipos)
  | S j' =>
      c ← at_index bm bipos;
      if negb (byte_eqb c x00) then Some None
      else matchAligned_loop bm (add64 bipos 1) j'
  end.

Definition matchAligned (bm : list byte) (bipos lng : Z) : option bool :=
  let n := shr64 lng 3 in
  let l := len bm in
  if l <? add64 bipos n then Some false else
  r ← matchAligned_loop bm bipos (Z.to_nat n);
  match r with
  | None => Some false
  | Some bipos =>
      let m := Z.land lng 7 in
      if m =? 0 then Some true else
      let b := shl8 xff (wrapU64 (sub64 8 m)) in
      if l <=? bipos then Some false else
      c ← at_index bm bipos;
      if byte_eqb (band c b) x00 then Some true else Some false
  end.

(** The loop [for j,c := range bm] of [FindFreeSpot] (runs longer than 8). *)
Fixpoint FindFreeSpot_loop (bm : list byte) (lng : Z)
    (j : Z) (rest : list byte) : option (Z * bool) :=
  match rest with
  | [] => Some (0, false)
  | c :: rest' =>
      let i := scan c xff 8 in
      if (i =? 0)%nat then FindFreeSpot_loop bm lng (j + 1) rest'
      else
        ok ← matchAligned bm (j + 1) (sub64 lng (Z.of_nat i));
        if ok : bool then Some (spot j i, true)
        else FindFreeSpot_loop bm lng (j + 1) rest'
  end.

(** Finds a range of free slots inside of a bitmap.  [None]: panic. *)
Definition FindFreeSpot (bm : list byte) (lng : Z) : option (Z * bool) :=
  if lng <? 0 then None
  else if lng <=? 8 then findFreeSpot8 bm lng
  else FindFreeSpot_loop bm lng 0 bm.

(** [bm[i] |= b] and [bm[i] &= ^b] *)
Definition or_at (bm : list byte) (i : Z) (b : byte) : option (list byte) :=
  c ← at_index bm i; set_index bm i (bor c b).
Definition andnot_at (bm : list byte) (i : Z) (b : byte) : option (list byte) :=
  c ← at_index bm i; set_index bm i (band c (bnot b)).

(** The loop [for lng>=8 { bm[pos>>3] = v; pos += 8; lng -= 8 }].  Every
    round takes 8 off [lng], so [Z.to_nat lng] rounds are never used up. *)
Fixpoint fill_loop (fuel : nat) (v : byte) (bm : list byte) (pos lng : Z)
    : option (list byte * Z * Z) :=
  if 8 <=? lng then
    match fuel with
    | O => Some (bm, pos, lng)
    | S fuel' =>
        bm' ← set_index bm (shr64 pos 3) v;
        fill_loop fuel' v bm' (add64 pos 8) (sub64 lng 8)
    end
  else Some (bm, pos, lng).

(** Allocates a range of slots inside of a bitmap.  [None]: panic. *)
Definition WriteInUse (bm : list byte) (pos lng : Z) : option (list byte) :=
  if (pos <? 0) || (lng <? 0) then None else
  let n := Z.land pos 7 in
  if shr64 (add64 lng n) 3 =? 0 then
    let b := shr8 (shl8 xff (wrapU64 (sub64 8 lng))) (wrapU64 n) in
    or_at bm (shr64 pos 3) b
  else
    '(bm, pos, lng) ←
      (if negb (n =? 0) then
         bm' ← or_at bm (shr64 pos 3) (shr8 xff (wrapU64 n));
         Some (bm', add64 pos (sub64 8 n), sub64 lng (sub64 8 n))
       else Some (bm, pos, lng));
    '(bm, pos, lng) ← fill_loop (Z.to_nat lng) xff bm pos lng;
    if 0 <? lng then
      or_at bm (shr64 pos 3) (shl8 xff (wrapU64 (sub64 8 lng)))
    else Some bm.

(** Frees a range of slots inside of a bitmap.  [None]: panic. *)
Definition WriteFree (bm : list byte) (pos lng : Z) : option (list byte) :=
  if (pos <? 0) || (lng <? 0) then None else
  let n := Z.land pos 7 in
  if shr64 (add64 lng n) 3 =? 0 then
    let b := shr8 (shl8 xff (wrapU64 (sub64 8 lng))) (wrapU64 n) in
    andnot_at bm (shr64 pos 3) b
  else
    '(bm, pos, lng) ←
      (if negb (n =? 0) then
         bm' ← andnot_at bm (shr64 pos 3) (shr8 xff (wrapU64 n));
         Some (bm', add64 pos (sub64 8 n), sub64 lng (sub64 8 n))
       else Some (bm, pos, lng));
    '(bm, pos, lng) ← fill_loop (Z.to_nat lng) x00 bm pos lng;
    if 0 <? lng then
      andnot_at bm (shr64 pos 3) (shl8 xff (wrapU64 (sub64 8 lng)))
    else Some bm.

(** Finds and allocates a range of free blocks inside of a bitmap.  The
    buffer is updated in place: the result carries its new contents. *)
Definition AllocateBitmap (bm : list byte) (lng : Z)
    : option (list byte * (Z * bool)) :=
  '(pos, ok) ← FindFreeSpot bm lng;
  if ok : bool then bm' ← WriteInUse bm pos lng; Some (bm', (pos, ok))
  else Some (bm, (pos, ok)).

(** The length [FreeBitmap] hands on after clipping:
<<
    max := int64(len(bm)*8)-pos
    if max<lng { lng = max }
>> *)
Definition FreeBitmap_clip (bm : list byte) (pos lng : Z) : Z :=
  let max := sub64 (wrap64 (len bm * 8)) pos in
  if max <? lng then max else lng.

(** Frees a range of slots inside of a bitmap. *)
Definition FreeBitmap (bm : list byte) (pos lng : Z) : option (list byte) :=
  let lng := FreeBitmap_clip bm pos lng in
  if 0 <? lng then WriteFree bm pos lng else Some bm.

End Bitmap.

(** ** Package filealloc *)

Module Filealloc.

(** Go [error] values; [nil] is [None]. *)
Inductive error :=
| EXTHAUSTED
| EXCEEDMAX
| outOfBounds
| IOError (code : Z).

#[global] Instance error_eq_dec : EqDecision error.
Proof. solve_decision. Defined.

(** [err != e] *)
Definition err_neq (err : option error) (e : option error) : bool :=
  negb (bool_decide (err = e)).

Record FormatConfig := {
  BlockSizeLog : byte;
  BitmapBlocks : byte;
  PrefixBlocks : byte;
  DontUseMmap : bool;
  DontMsync : bool;
  DontFsync : bool;
}.

Definition BlockSize (f : FormatConfig) : Z := shl64 1 (u8 (BlockSizeLog f)).

(** [int64(f.BitmapBlocks)<<(f.BlockSizeLog+3)]: the count [BlockSizeLog+3]
    is computed in [uint8]. *)
Definition RunSizeInBlocks (f : FormatConfig) : Z :=
  shl64 (u8 (BitmapBlocks f)) (wrap8 (u8 (BlockSizeLog f) + 3)).

Definition ChunkSizeInBlocks (f : FormatConfig) : Z :=
  add64 (RunSizeInBlocks f) (u8 (BitmapBlocks f)).

(** [None]: the division panics (chunk size zero). *)
Definition BreakAddress (f : FormatConfig) (blk : Z) : option (Z * Z * bool) :=
  let blk := sub64 blk (u8 (PrefixBlocks f)) in
  if blk <? 0 then Some (0, 0, false) else
  let chunksiz := ChunkSizeInBlocks f in
  if chunksiz =? 0 then None else
  let chunk := wrap64 (Z.quot blk chunksiz) in
  let pos := sub64 (Z.rem blk chunksiz) (u8 (BitmapBlocks f)) in
  Some (chunk, pos, 0 <=? pos).

Definition MakeAddress (f : FormatConfig) (chunk pos : Z) : Z :=
  let blk := u8 (PrefixBlocks f) in
  let chunksiz := ChunkSizeInBlocks f in
  let blk := add64 blk (mul64 chunk chunksiz) in
  let blk := add64 blk (u8 (BitmapBlocks f)) in
  add64 blk pos.

Definition NewFormatConfig (logBlockSize : byte) : FormatConfig :=
  {| BlockSizeLog := logBlockSize; BitmapBlocks := x01; PrefixBlocks := x01;
     DontUseMmap := false; DontMsync := false; DontFsync := false |}.

Record bitmapBuffer := {
  buffer : list byte;
  rawoff : Z;
  mmapped : bool;
}.

(** The calls an allocator makes on its [Storage] and [MemMapper]. *)
Inductive Call :=
| CallReadAt (n off : Z)
| CallWriteAt (p : list byte) (off : Z)
| CallSync
| CallClose
| CallMemmapAt (lng off : Z)
| CallFlushMap (mm : list byte)
| CallMemUnmap (mm : list byte).

(** The interfaces [Storage] and [MemMapper], over the state [W] of the
    backing store.  [ReadAt] returns the new contents of the buffer it was
    given; [getMemMapper] tells whether a provider yields a mapper for the
    store. *)
Class StorageModel (W : Type) := {
  ReadAt : W -> list byte -> Z -> W * (list byte * Z * option error);
  WriteAt : W -> list byte -> Z -> W * (Z * option error);
  Close : W -> W * option error;
  Sync : W -> W * option error;
  getMemMapper : W -> bool;
  MemmapAt : W -> Z -> Z -> W * (list byte * option error);
  FlushMap : W -> list byte -> W * option error;
  MemUnmap : W -> list byte -> W;
}.

(** What a run of the allocator ends in. *)
Inductive outcome (A : Type) :=
| Done (a : A)
| Panic
| OutOfFuel.
Arguments Done {A} a.
Arguments Panic {A}.
Arguments OutOfFuel {A}.

Section Allocator.
Context {W : Type} {SM : StorageModel W}.

(** The store behind the embedded [Storage], with the calls made so far. *)
Record Store := {
  world : W;
  calls : list Call;
}.

Record PageAllocator := {
  Storage : Store;
  Config : FormatConfig;
  mmapper : bool;            (* [pa.mmapper != nil] *)
  bitmapSize : Z;
  allocators : list bitmapBuffer;
}.

(** Allocator methods: state passing over the [PageAllocator], with panics. *)
Definition M (A : Type) : Type := PageAllocator -> outcome (A * PageAllocator).

Definition ret {A} (a : A) : M A := fun pa => Done (a, pa).
Definition bind {A B} (m : M A) (k : A -> M B) : M B :=
  fun pa =>
    match m pa with
    | Done (a, pa') => k a pa'
    | Panic => Panic
    | OutOfFuel => OutOfFuel
    end.
Definition panic {A} : M A := fun _ => Panic.
Definition get : M PageAllocator := fun pa => Done (pa, pa).
Definition put (pa : PageAllocator) : M unit := fun _ => Done (tt, pa).
(** A bitmap primitive that may panic. *)
Definition lift {A} (o : option A) : M A :=
  match o with Some a => ret a | None => panic end.

#[local] Instance M_ret : MRet M := @ret.
#[local] Instance M_bind : MBind M := fun A B k m => bind m k.

(** A call on the store: performs it on [world] and records it. *)
Definition call {A} (c : Call) (f : W -> W * A) : M A :=
  fun pa =>
    let '(w, a) := f (world (Storage pa)) in
    Done (a, {| Storage := {| world := w; calls := calls (Storage pa) ++ [c] |};
                Config := Config pa; mmapper := mmapper pa;
                bitmapSize := bitmapSize pa; allocators := allocators pa |}).

Definition set_allocators (l : list bitmapBuffer) : M unit :=
  fun pa =>
    Done (tt, {| Storage := Storage pa; Config := Config pa;
                 mmapper := mmapper pa; bitmapSize := bitmapSize pa;
                 allocators := l |}).

(** [make([]byte, n)]; a negative [n] panics. *)
Definition make_bytes (n : Z) : M (list byte) :=
  if n <? 0 then panic else ret (repeat x00 (Z.to_nat n)).

(** [pa.allocators[i]] *)
Definition allocator_at (i : Z) : M bitmapBuffer :=
  pa ← get; lift (at_index (allocators pa) i).

(** [pa.allocators[i].buffer] after a primitive has written into it. *)
Definition set_buffer (i : Z) (bm : list byte) : M unit :=
  pa ← get;
  b ← lift (at_index (allocators pa) i);
  l ← lift (set_index (allocators pa) i
         {| buffer := bm; rawoff := rawoff b; mmapped := mmapped b |});
  set_allocators l.

(** Returns the number of chunks. *)
Definition ChunksN (pa : PageAllocator) : Z := len (allocators pa).

(** The write-back shared by [doAllocate] and [doFree]:
<<
    if !pa.allocators[i].mmapped {
        _,err = pa.WriteAt(pa.allocators[i].buffer,pa.allocators[i].rawoff)
        if !pa.DontFsync { pa.Sync() }
    } else if !pa.DontMsync {
        err = pa.mmapper.FlushMap(pa.allocators[i].buffer)
    }
>>
    [err] keeps the value it had when neither branch assigns it. *)
Definition persist (i : Z) (err : option error) : M (option error) :=
  pa ← get;
  b ← allocator_at i;
  if negb (mmapped b) then
    r ← call (CallWriteAt (buffer b) (rawoff b))
              (fun w => WriteAt w (buffer b) (rawoff b));
    (if negb (DontFsync (Config pa))
     then call CallSync (fun w => Sync w);; ret tt else ret tt);;
    ret (snd r)
  else if negb (DontMsync (Config pa)) then
    call (CallFlushMap (buffer b)) (fun w => FlushMap w (buffer b))
  else ret err.

(** The loop [for i := range pa.allocators] of [doAllocate], at index [i]
    with [n] chunks left. *)
Fixpoint doAllocate_loop (n : nat) (i : Z) (lng : Z)
    : M (Z * bool * option error) :=
  match n with
  | O => ret (0, false, Some EXTHAUSTED)
  | S n' =>
      b ← allocator_at i;
      r ← lift (Bitmap.AllocateBitmap (buffer b) lng);
      let '(bm, (blk, ok)) := r in
      set_buffer i bm;;
      if negb ok then doAllocate_loop n' (i + 1) lng
      else
        pa ← get;
        let blk := MakeAddress (Config pa) i blk in
        err ← persist i None;
        ret (blk, ok, err)
  end.

Definition doAllocate (lng : Z) : M (Z * bool * option error) :=
  pa ← get;
  doAllocate_loop (length (allocators pa)) 0 lng.

Definition appendAllocator : M (option error) :=
  pa ← get;
  let f := Config pa in
  let off := MakeAddress f (len (allocators pa)) (wrap64 (- u8 (BitmapBlocks f))) in
  let rawoff := shl64 off (u8 (BlockSizeLog f)) in
  buf0 ← make_bytes (bitmapSize pa);
  r ← call (CallWriteAt buf0 rawoff) (fun w => WriteAt w buf0 rawoff);
  if err_neq (snd r) None then ret (snd r)
  else
    b ← (if mmapper pa then
            m ← call (CallMemmapAt (bitmapSize pa) rawoff)
                      (fun w => MemmapAt w (bitmapSize pa) rawoff);
            if negb (err_neq (snd m) None) && (bitmapSize pa <=? len (fst m))
            then ret {| buffer := fst m; rawoff := rawoff; mmapped := true |}
            else ret {| buffer := buf0; rawoff := rawoff; mmapped := false |}
          else ret {| buffer := buf0; rawoff := rawoff; mmapped := false |});
    pa' ← get;
    set_allocators (allocators pa' ++ [b]);;
    ret None.

(** The loop [for { ... }] of [AllocateBlocks]; [fuel] bounds its rounds. *)
Fixpoint AllocateBlocks_loop (fuel : nat) (lng : Z) (grow : bool)
    : M (Z * bool * option error) :=
  match fuel with
  | O => fun _ => OutOfFuel
  | S fuel' =>
      r ← doAllocate lng;
      let '(blk, ok, err) := r in
      if ok || err_neq err (Some EXTHAUSTED) || negb grow then ret (blk, ok, err)
      else
        err ← appendAllocator;
        if err_neq err None then ret (blk, ok, err)
        else AllocateBlocks_loop fuel' lng grow
  end.

(** Allocates a series of contiguous blocks. *)
Definition AllocateBlocks (fuel : nat) (lng : Z) (grow : bool)
    : M (Z * bool * option error) :=
  pa ← get;
  if RunSizeInBlocks (Config pa) <? lng then ret (0, false, Some EXCEEDMAX)
  else AllocateBlocks_loop fuel lng grow.

Definition doFree (blk lng : Z) : M (option error) :=
  pa ← get;
  r ← lift (BreakAddress (Config pa) blk);
  let '(i, pos, ok) := r in
  if negb ok then ret None
  else if i <? len (allocators pa) then
    b ← allocator_at i;
    bm ← lift (Bitmap.FreeBitmap (buffer b) pos lng);
    set_buffer i bm;;
    persist i None
  else ret None.

(** Free's a contiguous range of blocks. *)
Definition FreeBlocks (blk lng : Z) : M (option error) := doFree blk lng.

(** msyncs the chunk's bitmap, if it is mmapped. *)
Definition MemSyncIfMmapped (chunk : Z) : M (option error * bool) :=
  pa ← get;
  if len (allocators pa) <=? chunk then ret (Some outOfBounds, false)
  else
    b ← allocator_at chunk;
    if negb (mmapped b) then ret (None, false)
    else
      err ← call (CallFlushMap (buffer b)) (fun w => FlushMap w (buffer b));
      ret (err, true).

Definition getAllocator (off : Z) : M bitmapBuffer :=
  pa ← get;
  let rawoff := shl64 off (u8 (BlockSizeLog (Config pa))) in
  b ← (if mmapper pa then
          m ← call (CallMemmapAt (bitmapSize pa) rawoff)
                    (fun w => MemmapAt w (bitmapSize pa) rawoff);
          if negb (err_neq (snd m) None) && (bitmapSize pa <=? len (fst m))
          then ret {| buffer := fst m; rawoff := rawoff; mmapped := true |}
          else ret {| buffer := []; rawoff := rawoff; mmapped := false |}
        else ret {| buffer := []; rawoff := rawoff; mmapped := false |});
  if negb (mmapped b) then
    buf0 ← make_bytes (bitmapSize pa);
    r ← call (CallReadAt (len buf0) rawoff) (fun w => ReadAt w buf0 rawoff);
    ret {| buffer := fst (fst r); rawoff := rawoff; mmapped := false |}
  else ret b.

(** The read loop of [Init]: counts the bitmap regions present. *)
Fixpoint Init_count (fuel : nat) (buf : list byte) (pos stride : Z) (i : Z)
    : M (Z * Z) :=
  match fuel with
  | O => fun _ => OutOfFuel
  | S fuel' =>
      pa ← get;
      let off := shl64 pos (u8 (BlockSizeLog (Config pa))) in
      r ← call (CallReadAt (len buf) off) (fun w => ReadAt w buf off);
      if snd (fst r) <=? 0 then ret (i, pos)
      else Init_count fuel' (fst (fst r)) (add64 pos stride) stride (add64 i 1)
  end.

(** The loop [for j := range pa.allocators] of [Init]. *)
Fixpoint Init_fill (n : nat) (pos stride : Z) (acc : list bitmapBuffer)
    : M (list bitmapBuffer) :=
  match n with
  | O => ret acc
  | S n' =>
      b ← getAllocator pos;
      Init_fill n' (add64 pos stride) stride (acc ++ [b])
  end.

(** Initializes the page allocator after construction. *)
Definition Init (fuel : nat) : M unit :=
  pa ← get;
  let f := Config pa in
  let bsize := shl64 (u8 (BitmapBlocks f)) (u8 (BlockSizeLog f)) in
  put {| Storage := Storage pa; Config := f;
         mmapper := if DontUseMmap f then false
                    else getMemMapper (world (Storage pa));
         bitmapSize := bsize; allocators := allocators pa |};;
  buf ← make_bytes bsize;
  let stride := ChunkSizeInBlocks f in
  r ← Init_count fuel buf (u8 (PrefixBlocks f)) stride 0;
  let '(i, pos) := r in
  i ← (if i =? 0 then
          let off := shl64 pos (u8 (BlockSizeLog f)) in
          let zero := repeat x00 (length buf) in
          call (CallWriteAt zero off) (fun w => WriteAt w zero off);;
          ret (add64 i 1)
        else ret i);
  l ← Init_fill (Z.to_nat i) (u8 (PrefixBlocks f)) stride [];
  set_allocators l.

(** The loop [for i := range pa.allocators] of [Close]: every mapped buffer
    is unmapped and dropped ([buffer = nil], [mmapped = false]). *)
Fixpoint Close_loop (l : list bitmapBuffer) : M (list bitmapBuffer) :=
  match l with
  | [] => ret []
  | b :: l' =>
      b' ← (if mmapped b then
              call (CallMemUnmap (buffer b)) (fun w => (MemUnmap w (buffer b), tt));;
              ret {| buffer := []; rawoff := rawoff b; mmapped := false |}
            else ret b);
      l'' ← Close_loop l';
      ret (b' :: l'')
  end.

(** Closes the allocator and the underlying file ([PageAllocator.Close]; the
    name [Close] is the store's own method here). *)
Definition PageAllocator_Close : M (option error) :=
  pa ← get;
  l ← Close_loop (allocators pa);
  set_allocators l;;
  set_allocators [];;
  call CallClose (fun w => Close w);;
  ret None.

End Allocator.

Arguments Store W : clear implicits.
Arguments PageAllocator W : clear implicits.

End Filealloc.

(** ** The registry of mapper providers

    [memMapperProviders] is a process-wide list of functions from a store to
    a mapper or [nil]; it starts as [[castMemMapper]].  The store and mapper
    types are left open. *)

Module Registry.
Section Providers.
Variables Storage MemMapper : Type.

Definition provider : Type := Storage -> option MemMapper.

(** [memMapperProviders = append(memMapperProviders, f)] *)
Definition AddMemMapperProvider (f : provider) (ps : list provider)
    : list provider := ps ++ [f].

(** [for _,f := range memMapperProviders { mm := f(s); if mm!=nil { return mm } }] *)
Fixpoint getMemMapper (ps : list provider) (s : Storage) : option MemMapper :=
  match ps with
  | [] => None
  | f :: ps' =>
      match f s with
      | Some mm => Some mm
      | None => getMemMapper ps' s
      end
  end.

End Providers.
Arguments AddMemMapperProvider {Storage MemMapper} f ps.
Arguments getMemMapper {Storage MemMapper} ps s.
End Registry.


(** ** A store in memory

    A file held as its bytes, standing for [*os.File]: reads stop at the end
    of the file, a write past the end extends it with zeros.  With
    [mappable] a provider maps windows of the file; the window handed out is
    the file's bytes at that moment (no property below reads the file
    through a second path after mapping it). *)

Module MemStore.
Import Filealloc.

Record MemFile := {
  content : list byte;
  mappable : bool;
}.

Definition eof : error := IOError 0.
Definition einval : error := IOError 22.

Definition mf_ReadAt (w : MemFile) (buf : list byte) (off : Z)
    : MemFile * (list byte * Z * option error) :=
  if off <? 0 then (w, (buf, 0, Some einval)) else
  let data := take (length buf) (drop (Z.to_nat off) (content w)) in
  (w, (data ++ drop (length data) buf, len data,
       if len data <? len buf then Some eof else None)).

Definition mf_WriteAt (w : MemFile) (p : list byte) (off : Z)
    : MemFile * (Z * option error) :=
  if off <? 0 then (w, (0, Some einval)) else
  let o := Z.to_nat off in
  let old := content w in
  let padded := old ++ repeat x00 (o - length old)%nat in
  ({| content := take o padded ++ p ++ drop (o + length p)%nat old;
      mappable := mappable w |}, (len p, None)).

Definition mf_MemmapAt (w : MemFile) (lng off : Z)
    : MemFile * (list byte * option error) :=
  if (lng <? 0) || (off <? 0) || (len (content w) <? off + lng)
  then (w, ([], Some einval))
  else (w, (take (Z.to_nat lng) (drop (Z.to_nat off) (content w)), None)).

#[global] Instance MemFile_model : StorageModel MemFile := {|
  ReadAt := mf_ReadAt;
  WriteAt := mf_WriteAt;
  Close := fun w => (w, None);
  Sync := fun w => (w, None);
  getMemMapper := mappable;
  MemmapAt := mf_MemmapAt;
  FlushMap := fun w _ => (w, None);
  MemUnmap := fun w _ => w;
|}.

(** A [PageAllocator] as constructed, before [Init], on an empty file. *)
Definition fresh (f : FormatConfig) (mm : bool) : PageAllocator MemFile :=
  {| Storage := {| world := {| content := []; mappable := mm |}; calls := [] |};
     Config := f; mmapper := false; bitmapSize := 0; allocators := [] |}.

(** The configuration of the scenarios: 8-byte blocks, one bitmap block, one
    prefix block; the three flags are free. *)
Definition scenario_cfg (nommap nomsync nofsync : bool) : FormatConfig :=
  {| BlockSizeLog := x03; BitmapBlocks := x01; PrefixBlocks := x01;
     DontUseMmap := nommap; DontMsync := nomsync; DontFsync := nofsync |}.

(** A configuration whose run size overflows [int64]: blocks of [2^59]
    bytes, three bitmap blocks, so [3 << 62] wraps to [- 2^62]. *)
Definition overflow_cfg : FormatConfig :=
  {| BlockSizeLog := x3b; BitmapBlocks := x03; PrefixBlocks := x00;
     DontUseMmap := false; DontMsync := false; DontFsync := false |}.

(** An allocator holding one chunk with an 8-byte bitmap. *)
Definition one_chunk (f : FormatConfig) : PageAllocator MemFile :=
  {| Storage := {| world := {| content := repeat x00 16%nat; mappable := false |};
                   calls := [] |};
     Config := f; mmapper := false; bitmapSize := 8;
     allocators := [ {| buffer := repeat x00 8%nat; rawoff := 8; mmapped := false |} ] |}.

End MemStore.

(** ** Specification-level notions *)

(** Slot [t] (0..7) of a single byte. *)
Definition sbit (b : byte) (t : Z) : bool := Z.testbit (u8 b) (7 - t).

(** [bm'] is [bm] with exactly the slots [p, p+l) set to [v]: every other
    slot, and the length, unchanged. *)
Definition written (v : bool) (bm : list byte) (p l : Z) (bm' : list byte) : Prop :=
  length bm' = length bm /\
  forall s, slot bm' s = if (p <=? s) && (s <? p + l) then v else slot bm s.

(** All slots of [p, p+l) are free. *)
Definition free_run (bm : list byte) (p l : Z) : Prop :=
  forall s, p <= s < p + l -> slot bm s = false.

(** The window of width [w] that starts at slot [k] of the byte [c], cut at
    the end of the byte, is free. *)
Definition byte_window_free (c : byte) (k w : Z) : Prop :=
  forall t, k <= t < 8 -> t < k + w -> sbit c t = false.

(** The run [q, q+w) lies within one byte. *)
Definition within_byte (q w : Z) : Prop := q mod 8 + w <= 8.

(** A layout in which nothing overflows: the run size [M * 2^B * 8] is
    positive and the chunk size [M * 2^B * 8 + M] is an [int64]. *)
Definition layout_ok (f : Filealloc.FormatConfig) : Prop :=
  0 < u8 (Filealloc.BitmapBlocks f) * 2 ^ u8 (Filealloc.BlockSizeLog f) * 8 /\
  u8 (Filealloc.BitmapBlocks f) * 2 ^ u8 (Filealloc.BlockSizeLog f) * 8
    + u8 (Filealloc.BitmapBlocks f) <= max_int64.

(** [blk] is an [int64]. *)
Definition is_int64 (x : Z) : Prop := min_int64 <= x <= max_int64.

(** The calls the write-back of a chunk makes, for its buffer [b] under the
    configuration [f]. *)
Definition persist_calls (f : Filealloc.FormatConfig) (b : Filealloc.bitmapBuffer)
    : list Filealloc.Call :=
  if Filealloc.mmapped b then
    if Filealloc.DontMsync f then []
    else [Filealloc.CallFlushMap (Filealloc.buffer b)]
  else
    Filealloc.CallWriteAt (Filealloc.buffer b) (Filealloc.rawoff b)
      :: (if Filealloc.DontFsync f then [] else [Filealloc.CallSync]).

(** The bitmap of a chunk holds no free run of [lng] slots that
    [FindFreeSpot] finds. *)
Definition no_spot (lng : Z) (b : Filealloc.bitmapBuffer) : Prop :=
  exists p, Bitmap.FindFreeSpot (Filealloc.buffer b) lng = Some (p, false).

(** A chunk's buffer with new contents. *)
Definition with_buffer (b : Filealloc.bitmapBuffer) (bm : list byte)
    : Filealloc.bitmapBuffer :=
  {| Filealloc.buffer := bm; Filealloc.rawoff := Filealloc.rawoff b;
     Filealloc.mmapped := Filealloc.mmapped b |}.

(** Every bitmap buffer of the list is a Go slice. *)
Definition buffers_ok (l : list Filealloc.bitmapBuffer) : Prop :=
  Forall (fun b => slice_ok (Filealloc.buffer b)) l.

(** The calls [Close] makes on the mapper: one [MemUnmap] for each mapped
    bitmap, in the order of the chunks. *)
Definition unmap_calls (l : list Filealloc.bitmapBuffer) : list Filealloc.Call :=
  flat_map (fun b => if Filealloc.mmapped b
                     then [Filealloc.CallMemUnmap (Filealloc.buffer b)]
                     else []) l.

(** [WriteInUse] and [WriteFree] are one algorithm up to the value written:
    [v = true] ORs the mask in and fills with 0xff, [v = false] ANDs its
    complement and fills with 0.  [write_gen] is that algorithm; it unfolds
    to either function ([WriteInUse_gen], [WriteFree_gen]). *)
Definition apply_at (v : bool) : list byte -> Z -> byte -> option (list byte) :=
  if v then Bitmap.or_at else Bitmap.andnot_at.

Definition fill_byte (v : bool) : byte := if v then xff else x00.

Definition write_gen (v : bool) (bm : list byte) (pos lng : Z)
    : option (list byte) :=
  if (pos <? 0) || (lng <? 0) then None else
  let n := Z.land pos 7 in
  if shr64 (add64 lng n) 3 =? 0 then
    let b := shr8 (shl8 xff (wrapU64 (sub64 8 lng))) (wrapU64 n) in
    apply_at v bm (shr64 pos 3) b
  else
    '(bm, pos, lng) ←
      (if negb (n =? 0) then
         bm' ← apply_at v bm (shr64 pos 3) (shr8 xff (wrapU64 n));
         Some (bm', add64 pos (sub64 8 n), sub64 lng (sub64 8 n))
       else Some (bm, pos, lng));
    '(bm, pos, lng) ← Bitmap.fill_loop (Z.to_nat lng) (fill_byte v) bm pos lng;
    if 0 <? lng then
      apply_at v bm (shr64 pos 3) (shl8 xff (wrapU64 (sub64 8 lng)))
    else Some bm.

(** * Properties *)

(** ** Machine integers and bytes *)

Lemma wrap64_id x : min_int64 <= x <= max_int64 -> wrap64 x = x.
Proof.
  unfold wrap64, min_int64, max_int64. intros Hx.
  rewrite Z.mod_small; lia.
Qed.

Lemma wrap64_range x : min_int64 <= wrap64 x <= max_int64.
Proof.
  unfold wrap64, min_int64, max_int64.
  pose proof (Z.mod_pos_bound (x + 2 ^ 63) (2 ^ 64)). lia.
Qed.

Lemma wrapU64_id x : 0 <= x < 2 ^ 64 -> wrapU64 x = x.
Proof. intros Hx. unfold wrapU64. apply Z.mod_small. lia. Qed.

Lemma u8_range b : 0 <= u8 b < 256.
Proof. unfold u8. pose proof (Byte.to_N_bounded b). lia. Qed.

Lemma u8_byte_of z : u8 (byte_of z) = z mod 256.
Proof.
  unfold u8, byte_of.
  pose proof (Z.mod_pos_bound z 256 ltac:(lia)) as Hz.
  destruct (Byte.of_N (Z.to_N (z mod 256))) as [b|] eqn:E.
  - apply Byte.to_of_N in E. rewrite E. rewrite Z2N.id; lia.
  - apply Byte.of_N_None_iff in E. lia.
Qed.

Lemma byte_of_u8 b : byte_of (u8 b) = b.
Proof.
  unfold byte_of. rewrite Z.mod_small by apply u8_range.
  unfold u8. rewrite N2Z.id, Byte.of_to_N. reflexivity.
Qed.

Lemma u8_inj a b : u8 a = u8 b -> a = b.
Proof. intros E. rewrite <- (byte_of_u8 a), <- (byte_of_u8 b), E. reflexivity. Qed.

Lemma byte_eqb_eq a b : byte_eqb a b = true <-> a = b.
Proof.
  unfold byte_eqb. rewrite Z.eqb_eq. split; [apply u8_inj | congruence].
Qed.

Lemma u8_testbit_high b k : 8 <= k -> Z.testbit (u8 b) k = false.
Proof.
  intros Hk. rewrite <- (Z.mod_small (u8 b) (2 ^ 8)) by apply u8_range.
  apply Z.mod_pow2_bits_high. lia.
Qed.

(** Two bytes with the same eight slots are equal. *)
Lemma byte_ext a b : (forall t, 0 <= t < 8 -> sbit a t = sbit b t) -> a = b.
Proof.
  intros H. apply u8_inj, Z.bits_inj'. intros k Hk.
  destruct (Z.lt_ge_cases k 8) as [Hlt|Hge].
  - specialize (H (7 - k) ltac:(lia)). unfold sbit in H.
    replace (7 - (7 - k)) with k in H by lia. exact H.
  - rewrite !u8_testbit_high by lia. reflexivity.
Qed.

Lemma sbit_byte_of z t : 0 <= t < 8 -> sbit (byte_of z) t = Z.testbit z (7 - t).
Proof.
  intros Ht. unfold sbit. rewrite u8_byte_of.
  change 256 with (2 ^ 8). apply Z.mod_pow2_bits_low. lia.
Qed.

Lemma sbit_bor a b t : 0 <= t < 8 -> sbit (bor a b) t = sbit a t || sbit b t.
Proof.
  intros Ht. unfold bor. rewrite sbit_byte_of by exact Ht.
  apply Z.lor_spec.
Qed.

Lemma sbit_band a b t : 0 <= t < 8 -> sbit (band a b) t = sbit a t && sbit b t.
Proof.
  intros Ht. unfold band. rewrite sbit_byte_of by exact Ht.
  apply Z.land_spec.
Qed.

Lemma sbit_bnot a t : 0 <= t < 8 -> sbit (bnot a) t = negb (sbit a t).
Proof.
  intros Ht. unfold bnot. rewrite sbit_byte_of by exact Ht.
  rewrite Z.lxor_spec. change 255 with (Z.ones 8).
  rewrite Z.ones_spec_low by lia. unfold sbit.
  destruct (Z.testbit (u8 a) (7 - t)); reflexivity.
Qed.

Lemma sbit_xff t : 0 <= t < 8 -> sbit xff t = true.
Proof.
  intros Ht. unfold sbit. change (u8 xff) with (Z.ones 8).
  apply Z.ones_spec_low. lia.
Qed.

Lemma sbit_x00 t : sbit x00 t = false.
Proof. unfold sbit. change (u8 x00) with 0. apply Z.bits_0. Qed.

(** Applying a mask [m] with value [v]: slots under the mask take [v]. *)
Lemma sbit_apply (v : bool) c m t :
  0 <= t < 8 ->
  sbit (if v then bor c m else band c (bnot m)) t = if sbit m t then v else sbit c t.
Proof.
  intros Ht. destruct v.
  - rewrite sbit_bor by exact Ht. destruct (sbit m t), (sbit c t); reflexivity.
  - rewrite sbit_band, sbit_bnot by exact Ht.
    destruct (sbit m t), (sbit c t); reflexivity.
Qed.

(** Case analysis on a small integer. *)
Ltac small_cases x :=
  let H := fresh in
  assert (H : x = 0 \/ x = 1 \/ x = 2 \/ x = 3 \/ x = 4 \/ x = 5 \/ x = 6 \/ x = 7 \/ x = 8) by lia;
  destruct H as [H|[H|[H|[H|[H|[H|[H|[H|H]]]]]]]]; subst x.

(** The three masks of [WriteInUse]/[WriteFree]. *)
Lemma mask_mid n l t :
  0 <= n -> 0 <= l -> n + l < 8 -> 0 <= t < 8 ->
  sbit (shr8 (shl8 xff (wrapU64 (sub64 8 l))) (wrapU64 n)) t = (n <=? t) && (t <? n + l).
Proof.
  intros Hn Hl Hnl Ht.
  small_cases n; try lia; small_cases l; try lia; small_cases t; try lia;
    vm_compute; reflexivity.
Qed.

Lemma mask_tail n t :
  0 <= n < 8 -> 0 <= t < 8 ->
  sbit (shr8 xff (wrapU64 n)) t = (n <=? t).
Proof.
  intros Hn Ht.
  small_cases n; try lia; small_cases t; try lia; vm_compute; reflexivity.
Qed.

Lemma mask_head l t :
  0 <= l <= 8 -> 0 <= t < 8 ->
  sbit (shl8 xff (wrapU64 (sub64 8 l))) t = (t <? l).
Proof.
  intros Hl Ht.
  small_cases l; try lia; small_cases t; try lia; vm_compute; reflexivity.
Qed.

(** ** Slots of a buffer *)

Ltac zbool :=
  repeat match goal with
  | |- context [?a <=? ?b] => destruct (Z.leb_spec a b)
  | |- context [?a <? ?b] => destruct (Z.ltb_spec a b)
  | |- context [?a =? ?b] => destruct (Z.eqb_spec a b)
  end; simpl; try reflexivity; try lia.

Lemma at_index_Some {A} (l : list A) i :
  0 <= i < len l -> exists x, at_index l i = Some x.
Proof.
  intros Hi. unfold at_index, len in *.
  destruct (Z.ltb_spec i 0); [lia|].
  destruct (Z.leb_spec (Z.of_nat (length l)) i); [lia|]. simpl.
  destruct (lookup_lt_is_Some_2 l (Z.to_nat i)) as [x Hx]; [lia|].
  exists x. exact Hx.
Qed.

Lemma at_index_inv {A} (l : list A) i x :
  at_index l i = Some x -> 0 <= i < len l /\ l !! Z.to_nat i = Some x.
Proof.
  unfold at_index, len.
  destruct (Z.ltb_spec i 0); [discriminate|].
  destruct (Z.leb_spec (Z.of_nat (length l)) i); [discriminate|]. simpl.
  intros Hx. split; [lia | exact Hx].
Qed.

Lemma slot_at bm s c : at_index bm (s / 8) = Some c -> slot bm s = sbit c (s mod 8).
Proof. intros H. unfold slot. rewrite H. reflexivity. Qed.

Lemma slot_outside bm s : ~ (0 <= s < slots bm) -> slot bm s = false.
Proof.
  intros Hs. unfold slot, at_index, slots, len in *.
  destruct (Z.ltb_spec (s / 8) 0); [reflexivity|].
  destruct (Z.leb_spec (Z.of_nat (length bm)) (s / 8)); [reflexivity|].
  exfalso. apply Hs.
  pose proof (Z.div_mod s 8 ltac:(lia)).
  pose proof (Z.mod_pos_bound s 8 ltac:(lia)). lia.
Qed.

Lemma set_index_slot bm k v bm' :
  set_index bm k v = Some bm' ->
  length bm' = length bm /\
  forall s, slot bm' s = if s / 8 =? k then sbit v (s mod 8) else slot bm s.
Proof.
  unfold set_index.
  destruct (Z.ltb_spec k 0) as [|Hk0]; [discriminate|].
  destruct (Z.leb_spec (len bm) k) as [|Hk1]; [discriminate|]. simpl.
  intros E. injection E as <-. split; [apply length_insert|].
  intros s. unfold slot, at_index, len in *. rewrite length_insert.
  destruct (Z.ltb_spec (s / 8) 0) as [|Hs0]; simpl.
  { destruct (Z.eqb_spec (s / 8) k); [lia | reflexivity]. }
  destruct (Z.leb_spec (Z.of_nat (length bm)) (s / 8)) as [|Hs1]; simpl.
  { destruct (Z.eqb_spec (s / 8) k); [lia | reflexivity]. }
  destruct (Z.eqb_spec (s / 8) k) as [->|Hne].
  - rewrite list_lookup_insert_eq by lia. reflexivity.
  - rewrite list_lookup_insert_ne by lia. reflexivity.
Qed.

Lemma written_length v bm p l bm' : written v bm p l bm' -> len bm' = len bm.
Proof. intros [H _]. unfold len. rewrite H. reflexivity. Qed.

Lemma written_nil v bm p : written v bm p 0 bm.
Proof. split; [reflexivity|]. intros s. zbool. Qed.

Lemma written_trans v bm p l1 bm1 l2 bm2 :
  0 <= l1 -> 0 <= l2 ->
  written v bm p l1 bm1 -> written v bm1 (p + l1) l2 bm2 ->
  written v bm p (l1 + l2) bm2.
Proof.
  intros H1 H2 [L1 S1] [L2 S2]. split; [congruence|].
  intros s. rewrite S2, S1. zbool.
Qed.

(** [bm[k] |= m] or [bm[k] &= ^m] for a mask covering slots [a, b) of the
    byte. *)
Lemma apply_at_written v bm k m a b :
  0 <= k < len bm -> 0 <= a -> a <= b <= 8 ->
  (forall t, 0 <= t < 8 -> sbit m t = (a <=? t) && (t <? b)) ->
  exists bm', apply_at v bm k m = Some bm' /\ written v bm (8 * k + a) (b - a) bm'.
Proof.
  intros Hk Ha Hb Hm.
  destruct (at_index_Some bm k Hk) as [c Hc].
  assert (E : apply_at v bm k m =
              set_index bm k (if v then bor c m else band c (bnot m))).
  { destruct v; unfold apply_at, Bitmap.or_at, Bitmap.andnot_at;
      rewrite Hc; reflexivity. }
  rewrite E.
  destruct (set_index bm k (if v then bor c m else band c (bnot m)))
    as [bm'|] eqn:Es.
  2:{ unfold set_index in Es.
      destruct (Z.ltb_spec k 0); [lia|].
      destruct (Z.leb_spec (len bm) k); [lia|]. discriminate. }
  exists bm'. split; [reflexivity|].
  destruct (set_index_slot _ _ _ _ Es) as [L S]. split; [exact L|].
  intros s. rewrite S.
  pose proof (Z.div_mod s 8 ltac:(lia)) as Hdm.
  pose proof (Z.mod_pos_bound s 8 ltac:(lia)) as Hmb.
  destruct (Z.eqb_spec (s / 8) k) as [Ek|Ek].
  - rewrite sbit_apply by lia. rewrite Hm by lia.
    rewrite <- Ek in Hc. rewrite (slot_at _ _ _ Hc).
    replace ((8 * k + a <=? s) && (s <? 8 * k + a + (b - a)))
      with ((a <=? s mod 8) && (s mod 8 <? b)); [reflexivity|].
    subst k. zbool.
  - zbool.
Qed.

Lemma shr64_3 x : shr64 x 3 = x / 8.
Proof. unfold shr64. rewrite Z.shiftr_div_pow2 by lia. reflexivity. Qed.

Lemma land_7 x : Z.land x 7 = x mod 8.
Proof. change 7 with (Z.ones 3). rewrite Z.land_ones by lia. reflexivity. Qed.

Lemma sbit_fill_byte v t : 0 <= t < 8 -> sbit (fill_byte v) t = v.
Proof.
  intros Ht. destruct v; simpl; [apply sbit_xff; exact Ht | apply sbit_x00].
Qed.

Lemma slots_written v bm p l bm' : written v bm p l bm' -> slots bm' = slots bm.
Proof. intros H. unfold slots. rewrite (written_length _ _ _ _ _ H). reflexivity. Qed.

(** One round of the fill loop writes a whole byte. *)
Lemma set_index_written v bm pos :
  0 <= pos -> pos mod 8 = 0 -> pos + 8 <= slots bm ->
  exists bm', set_index bm (pos / 8) (fill_byte v) = Some bm' /\
              written v bm pos 8 bm'.
Proof.
  intros Hp Hal Hin. unfold slots in Hin.
  pose proof (Z.div_mod pos 8 ltac:(lia)) as Hdm.
  destruct (set_index bm (pos / 8) (fill_byte v)) as [bm'|] eqn:Es.
  2:{ unfold set_index in Es.
      destruct (Z.ltb_spec (pos / 8) 0); [lia|].
      destruct (Z.leb_spec (len bm) (pos / 8)); [lia|]. discriminate. }
  exists bm'. split; [reflexivity|].
  destruct (set_index_slot _ _ _ _ Es) as [L S]. split; [exact L|].
  intros s. rewrite S.
  pose proof (Z.div_mod s 8 ltac:(lia)) as Hdms.
  pose proof (Z.mod_pos_bound s 8 ltac:(lia)) as Hmb.
  destruct (Z.eqb_spec (s / 8) (pos / 8)) as [Ek|Ek].
  - rewrite sbit_fill_byte by lia. zbool.
  - zbool.
Qed.

(** The fill loop, given fuel for its [lng / 8] rounds, writes [lng / 8]
    whole bytes and leaves [lng mod 8] slots to the tail. *)
Lemma fill_loop_written v fuel : forall bm pos lng,
  0 <= pos -> pos mod 8 = 0 -> 0 <= lng -> pos + lng <= slots bm ->
  slice_ok bm -> lng / 8 <= Z.of_nat fuel ->
  exists bm',
    Bitmap.fill_loop fuel (fill_byte v) bm pos lng
      = Some (bm', pos + 8 * (lng / 8), lng mod 8) /\
    written v bm pos (8 * (lng / 8)) bm'.
Proof.
  induction fuel as [|fuel IH]; intros bm pos lng Hp Hal Hl Hin Hok Hfuel;
    pose proof (Z.div_mod lng 8 ltac:(lia)) as Hdm;
    pose proof (Z.mod_pos_bound lng 8 ltac:(lia)) as Hmb;
    simpl; destruct (Z.leb_spec 8 lng) as [Hge|Hlt].
  - lia.
  - exists bm. replace (lng / 8) with 0 by lia.
    replace (lng mod 8) with lng by lia.
    rewrite Z.mul_0_r, Z.add_0_r. split; [reflexivity | apply written_nil].
  - destruct (set_index_written v bm pos Hp Hal ltac:(lia)) as (bm1 & E1 & W1).
    rewrite shr64_3, E1. simpl.
    unfold slice_ok, max_int64 in Hok.
    unfold add64, sub64.
    rewrite !wrap64_id by (unfold min_int64, max_int64; lia).
    pose proof (slots_written _ _ _ _ _ W1) as Hs1.
    assert (Hq : (lng - 8) / 8 = lng / 8 - 1).
    { pose proof (Z.div_mod (lng - 8) 8 ltac:(lia)).
      pose proof (Z.mod_pos_bound (lng - 8) 8 ltac:(lia)). lia. }
    assert (Hr : (lng - 8) mod 8 = lng mod 8).
    { pose proof (Z.div_mod (lng - 8) 8 ltac:(lia)). lia. }
    destruct (IH bm1 (pos + 8) (lng - 8)) as (bm2 & E2 & W2); try lia.
    { rewrite <- Z.add_mod_idemp_l, Hal by lia. reflexivity. }
    { unfold slice_ok, max_int64. lia. }
    exists bm2. rewrite E2, Hq, Hr. split; [f_equal; f_equal; f_equal; lia|].
    replace (8 * (lng / 8)) with (8 + 8 * ((lng - 8) / 8)) by lia.
    apply (written_trans v bm pos 8 bm1); try lia; assumption.
  - exists bm. replace (lng / 8) with 0 by lia.
    replace (lng mod 8) with lng by lia.
    rewrite Z.mul_0_r, Z.add_0_r. split; [reflexivity | apply written_nil].
Qed.

Lemma add64_id a b : min_int64 <= a + b <= max_int64 -> add64 a b = a + b.
Proof. apply wrap64_id. Qed.

Lemma sub64_id a b : min_int64 <= a - b <= max_int64 -> sub64 a b = a - b.
Proof. apply wrap64_id. Qed.

Ltac int64_id :=
  repeat first
    [ rewrite add64_id by (unfold min_int64, max_int64; lia)
    | rewrite sub64_id by (unfold min_int64, max_int64; lia) ].

(** The fuel [Z.to_nat lng] that [WriteInUse] and [WriteFree] give the fill
    loop is never used up: for an [int64] length, fuel beyond [lng / 8]
    rounds does not change the result, panics included. *)
Lemma fill_loop_fuel v fuel : forall k bm pos lng,
  lng <= max_int64 -> lng / 8 <= Z.of_nat fuel ->
  Bitmap.fill_loop (fuel + k) v bm pos lng = Bitmap.fill_loop fuel v bm pos lng.
Proof.
  induction fuel as [|fuel IH]; intros k bm pos lng Hmax Hfuel.
  - destruct (Z.le_gt_cases 8 lng) as [Hge|Hlt].
    + pose proof (Z.div_le_mono 8 lng 8 ltac:(lia) Hge) as Hd.
      rewrite Z.div_same in Hd by lia. lia.
    + destruct k; simpl; destruct (Z.leb_spec 8 lng); try lia; reflexivity.
  - simpl. destruct (Z.leb_spec 8 lng) as [Hge|Hlt]; [|reflexivity].
    destruct (set_index bm (shr64 pos 3) v) as [bm'|]; [|reflexivity]. simpl.
    unfold max_int64 in Hmax.
    rewrite sub64_id by (unfold min_int64, max_int64; lia).
    apply IH; [unfold max_int64; lia|].
    pose proof (Z.div_mod lng 8 ltac:(lia)).
    pose proof (Z.mod_pos_bound lng 8 ltac:(lia)).
    pose proof (Z.div_mod (lng - 8) 8 ltac:(lia)).
    pose proof (Z.mod_pos_bound (lng - 8) 8 ltac:(lia)). lia.
Qed.

Lemma fill_loop_fuel_enough lng : 0 <= lng -> lng / 8 <= Z.of_nat (Z.to_nat lng).
Proof.
  intros Hl. rewrite Z2Nat.id by exact Hl.
  pose proof (Z.div_mod lng 8 ltac:(lia)).
  pose proof (Z.mod_pos_bound lng 8 ltac:(lia)). lia.
Qed.

Lemma WriteInUse_gen bm pos lng : Bitmap.WriteInUse bm pos lng = write_gen true bm pos lng.
Proof. reflexivity. Qed.

Lemma WriteFree_gen bm pos lng : Bitmap.WriteFree bm pos lng = write_gen false bm pos lng.
Proof. reflexivity. Qed.

(** The three phases of the algorithm (leading partial byte, whole bytes,
    trailing partial byte) together write exactly the slots [p, p+l). *)
Lemma write_gen_written v bm p l :
  0 <= p -> 0 <= l -> p + l <= slots bm -> p < slots bm -> slice_ok bm ->
  exists bm', write_gen v bm p l = Some bm' /\ written v bm p l bm'.
Proof.
  intros Hp Hl Hin Hlt Hok.
  pose proof Hok as Hok'. unfold slice_ok, max_int64 in Hok'.
  pose proof (Z.div_mod p 8 ltac:(lia)) as Hdm.
  pose proof (Z.mod_pos_bound p 8 ltac:(lia)) as Hmb.
  assert (Hk : 0 <= p / 8 < len bm) by (unfold slots in *; lia).
  unfold write_gen.
  destruct (Z.ltb_spec p 0); [lia|]. destruct (Z.ltb_spec l 0); [lia|]. simpl.
  rewrite land_7, !shr64_3. rewrite (add64_id l) by (unfold min_int64, max_int64; lia).
  destruct (Z.eqb_spec ((l + p mod 8) / 8) 0) as [Hsmall|Hbig].
  - (* the range lies within one byte *)
    assert (l + p mod 8 < 8).
    { pose proof (Z.div_mod (l + p mod 8) 8 ltac:(lia)).
      pose proof (Z.mod_pos_bound (l + p mod 8) 8 ltac:(lia)). lia. }
    destruct (apply_at_written v bm (p / 8)
                (shr8 (shl8 xff (wrapU64 (sub64 8 l))) (wrapU64 (p mod 8)))
                (p mod 8) (p mod 8 + l)) as (bm' & E & Wr); try lia.
    { intros t Ht. apply (mask_mid (p mod 8) l t); lia. }
    exists bm'. split; [exact E|].
    replace (8 * (p / 8) + p mod 8) with p in Wr by lia.
    replace (p mod 8 + l - p mod 8) with l in Wr by lia. exact Wr.
  - assert (8 <= l + p mod 8).
    { destruct (Z.le_gt_cases 8 (l + p mod 8)) as [|Hc]; [assumption|].
      exfalso. apply Hbig. apply Z.div_small. lia. }
    (* leading partial byte *)
    assert (Hlead : exists bm1 p1 l1,
      (if negb (p mod 8 =? 0)
       then bm' ← apply_at v bm (p / 8) (shr8 xff (wrapU64 (p mod 8)));
            Some (bm', add64 p (sub64 8 (p mod 8)), sub64 l (sub64 8 (p mod 8)))
       else Some (bm, p, l)) = Some (bm1, p1, l1) /\
      written v bm p (p1 - p) bm1 /\
      p <= p1 /\ p1 mod 8 = 0 /\ 0 <= l1 /\ p1 + l1 = p + l).
    { destruct (Z.eqb_spec (p mod 8) 0) as [Hz|Hnz]; simpl.
      - exists bm, p, l. split; [reflexivity|].
        rewrite Z.sub_diag. split; [apply written_nil | lia].
      - destruct (apply_at_written v bm (p / 8)
                    (shr8 xff (wrapU64 (p mod 8))) (p mod 8) 8)
          as (bm1 & E & Wr); try lia.
        { intros t Ht. rewrite mask_tail by lia. zbool. }
        exists bm1, (p + (8 - p mod 8)), (l - (8 - p mod 8)).
        rewrite E. simpl. int64_id. split; [reflexivity|].
        replace (8 * (p / 8) + p mod 8) with p in Wr by lia.
        replace (p + (8 - p mod 8) - p) with (8 - p mod 8) by lia.
        split; [exact Wr|].
        replace (p + (8 - p mod 8)) with (8 * (p / 8 + 1)) by lia.
        rewrite Z.mul_comm, Z.mod_mul by lia. lia. }
    destruct Hlead as (bm1 & p1 & l1 & E1 & W1 & Hp1 & Hal1 & Hl1 & Hsum).
    rewrite E1. simpl.
    pose proof (slots_written _ _ _ _ _ W1) as Hs1.
    (* whole bytes *)
    pose proof (Z.div_mod l1 8 ltac:(lia)) as Hdm1.
    pose proof (Z.mod_pos_bound l1 8 ltac:(lia)) as Hmb1.
    destruct (fill_loop_written v (Z.to_nat l1) bm1 p1 l1) as (bm2 & E2 & W2);
      try lia.
    { unfold slice_ok, max_int64. lia. }
    rewrite E2. simpl.
    pose proof (slots_written _ _ _ _ _ W2) as Hs2.
    assert (W12 : written v bm p (p1 - p + 8 * (l1 / 8)) bm2).
    { apply (written_trans v bm p (p1 - p) bm1); try lia; [exact W1|].
      replace (p + (p1 - p)) with p1 by lia. exact W2. }
    (* trailing partial byte *)
    destruct (Z.ltb_spec 0 (l1 mod 8)) as [Htail|Hnotail].
    + set (p2 := p1 + 8 * (l1 / 8)) in *.
      assert (Hp2 : p2 / 8 = p1 / 8 + l1 / 8).
      { unfold p2. rewrite Z.mul_comm, Z.div_add by lia. reflexivity. }
      pose proof (Z.div_mod p1 8 ltac:(lia)) as Hdmp1.
      destruct (apply_at_written v bm2 (p2 / 8)
                  (shl8 xff (wrapU64 (sub64 8 (l1 mod 8)))) 0 (l1 mod 8))
        as (bm3 & E3 & W3); try lia.
      { unfold slots in *. lia. }
      { intros t Ht. rewrite mask_head by lia. zbool. }
      exists bm3. rewrite shr64_3. split; [exact E3|].
      replace l with ((p1 - p + 8 * (l1 / 8)) + l1 mod 8) by lia.
      apply (written_trans v bm p _ bm2); try lia; [exact W12|].
      replace (p + (p1 - p + 8 * (l1 / 8))) with (8 * (p2 / 8) + 0) by lia.
      rewrite Z.sub_0_r in W3. exact W3.
    + exists bm2. split; [reflexivity|].
      replace l with (p1 - p + 8 * (l1 / 8)) by lia. exact W12.
Qed.

Lemma slot_lookup (bm : list byte) (i : nat) c t :
  bm !! i = Some c -> 0 <= t < 8 -> slot bm (8 * Z.of_nat i + t) = sbit c t.
Proof.
  intros Hc Ht. unfold slot.
  assert (Hq : (8 * Z.of_nat i + t) / 8 = Z.of_nat i).
  { rewrite Z.mul_comm, Z.div_add_l by lia. rewrite (Z.div_small t) by lia. lia. }
  assert (Hr : (8 * Z.of_nat i + t) mod 8 = t).
  { rewrite Z.add_comm, Z.mul_comm, Z.mod_add by lia. apply Z.mod_small. lia. }
  rewrite Hq, Hr. unfold at_index, len.
  pose proof (lookup_lt_Some _ _ _ Hc) as Hi.
  destruct (Z.ltb_spec (Z.of_nat i) 0); [lia|].
  destruct (Z.leb_spec (Z.of_nat (length bm)) (Z.of_nat i)); [lia|]. simpl.
  rewrite Nat2Z.id, Hc. reflexivity.
Qed.

(** Two buffers of the same length with the same slots are equal. *)
Lemma buffer_ext (bm bm' : list byte) :
  length bm = length bm' -> (forall s, slot bm s = slot bm' s) -> bm = bm'.
Proof.
  intros L S. apply list_eq. intros i.
  destruct (bm !! i) as [c|] eqn:E.
  - destruct (lookup_lt_is_Some_2 bm' i) as [c' E'].
    { rewrite <- L. eapply lookup_lt_Some. exact E. }
    rewrite E'. f_equal. apply byte_ext. intros t Ht.
    rewrite <- (slot_lookup bm i c t), <- (slot_lookup bm' i c' t) by assumption.
    apply S.
  - symmetry. apply lookup_ge_None. rewrite <- L. apply lookup_ge_None. exact E.
Qed.

(** Writing [false] over a range after writing [true] over it is writing
    [false] over it. *)
Lemma written_overwrite v w bm p l bm1 bm2 :
  written v bm p l bm1 -> written w bm1 p l bm2 -> written w bm p l bm2.
Proof.
  intros [L1 S1] [L2 S2]. split; [congruence|].
  intros s. rewrite S2, S1. zbool.
Qed.

Lemma written_free_id bm p l bm' :
  written false bm p l bm' -> (bm' = bm <-> free_run bm p l).
Proof.
  intros [L S]. split.
  - intros -> s Hs. specialize (S s). revert S.
    destruct (Z.leb_spec p s); [|lia]. destruct (Z.ltb_spec s (p + l)); [|lia].
    simpl. intros ->. reflexivity.
  - intros Hfree. apply buffer_ext; [exact L|]. intros s. rewrite S.
    destruct (Z.leb_spec p s); simpl; [|reflexivity].
    destruct (Z.ltb_spec s (p + l)); simpl; [|reflexivity].
    symmetry. apply Hfree. lia.
Qed.

(** ** The bitmap primitives *)

(** C7. Mark/Clear locality: on a buffer [bm] with [p >= 0], [l >= 0],
    [p + l <= 8*|bm|] and [p < 8*|bm|], [WriteInUse bm p l] returns without a
    panic a buffer of the same length whose slots in [p, p+l) are 1 and
    whose other slots are those of [bm]; [WriteFree bm p l] likewise with 0.
    ([slice_ok]: the buffer is a Go slice, its slot count is an [int].) *)
Theorem WriteInUse_WriteFree_locality bm p l :
  0 <= p -> 0 <= l -> p + l <= slots bm -> p < slots bm -> slice_ok bm ->
  (exists bm1, Bitmap.WriteInUse bm p l = Some bm1 /\
     length bm1 = length bm /\
     forall s, slot bm1 s = if (p <=? s) && (s <? p + l) then true else slot bm s) /\
  (exists bm0, Bitmap.WriteFree bm p l = Some bm0 /\
     length bm0 = length bm /\
     forall s, slot bm0 s = if (p <=? s) && (s <? p + l) then false else slot bm s).
Proof.
  intros Hp Hl Hin Hlt Hok. split.
  - rewrite WriteInUse_gen.
    destruct (write_gen_written true bm p l) as (bm1 & E & L & S); try assumption.
    exists bm1. auto.
  - rewrite WriteFree_gen.
    destruct (write_gen_written false bm p l) as (bm0 & E & L & S); try assumption.
    exists bm0. auto.
Qed.

Lemma WriteInUse_WriteFree_locality_witness :
  (0 <= 3 /\ 0 <= 9 /\ 3 + 9 <= slots [x0f; xa5] /\ 3 < slots [x0f; xa5] /\
   slice_ok [x0f; xa5]) /\
  (exists bm1, Bitmap.WriteInUse [x0f; xa5] 3 9 = Some bm1 /\
     length bm1 = length [x0f; xa5] /\
     forall s, slot bm1 s = if (3 <=? s) && (s <? 3 + 9) then true
                            else slot [x0f; xa5] s) /\
  (exists bm0, Bitmap.WriteFree [x0f; xa5] 3 9 = Some bm0 /\
     length bm0 = length [x0f; xa5] /\
     forall s, slot bm0 s = if (3 <=? s) && (s <? 3 + 9) then false
                            else slot [x0f; xa5] s).
Proof.
  assert (H : 0 <= 3 /\ 0 <= 9 /\ 3 + 9 <= slots [x0f; xa5] /\
              3 < slots [x0f; xa5] /\ slice_ok [x0f; xa5]).
  { unfold slice_ok, slots, len, max_int64. simpl. lia. }
  split; [exact H|].
  destruct H as (H1 & H2 & H3 & H4 & H5).
  exact (WriteInUse_WriteFree_locality [x0f; xa5] 3 9 H1 H2 H3 H4 H5).
Defined.

(** C3 (as the code has it). Round-trip: on a buffer [bm] with [p >= 0],
    [l >= 0], [p + l <= 8*|bm|] and [p < 8*|bm|], [WriteInUse bm p l] followed
    by [WriteFree _ p l] returns [bm] with the slots [p, p+l) cleared and
    every other slot unchanged; that is [bm] itself exactly when the slots
    [p, p+l) of [bm] were all free before. *)
Theorem WriteInUse_WriteFree_roundtrip bm p l :
  0 <= p -> 0 <= l -> p + l <= slots bm -> p < slots bm -> slice_ok bm ->
  exists bm1 bm2,
    Bitmap.WriteInUse bm p l = Some bm1 /\
    Bitmap.WriteFree bm1 p l = Some bm2 /\
    Bitmap.WriteFree bm p l = Some bm2 /\
    length bm2 = length bm /\
    (forall s, slot bm2 s = if (p <=? s) && (s <? p + l) then false else slot bm s) /\
    (bm2 = bm <-> free_run bm p l).
Proof.
  intros Hp Hl Hin Hlt Hok.
  destruct (write_gen_written true bm p l) as (bm1 & E1 & W1); try assumption.
  pose proof (slots_written _ _ _ _ _ W1) as Hs1.
  destruct (write_gen_written false bm1 p l) as (bm2 & E2 & W2); try lia.
  { unfold slice_ok in *. lia. }
  destruct (write_gen_written false bm p l) as (bm3 & E3 & W3); try assumption.
  pose proof (written_overwrite _ _ _ _ _ _ _ W1 W2) as W12.
  assert (bm3 = bm2) as ->.
  { destruct W3 as [L3 S3], W12 as [L12 S12].
    apply buffer_ext; [congruence|]. intros s. rewrite S3, S12. reflexivity. }
  exists bm1, bm2. rewrite WriteInUse_gen, !WriteFree_gen.
  split; [exact E1|]. split; [exact E2|]. split; [exact E3|].
  split; [apply W12|]. split; [apply W12|].
  apply (written_free_id _ _ _ _ W12).
Qed.

Lemma WriteInUse_WriteFree_roundtrip_witness :
  (0 <= 3 /\ 0 <= 9 /\ 3 + 9 <= slots [xe0; x0f] /\ 3 < slots [xe0; x0f] /\
   slice_ok [xe0; x0f]) /\
  exists bm1 bm2,
    Bitmap.WriteInUse [xe0; x0f] 3 9 = Some bm1 /\
    Bitmap.WriteFree bm1 3 9 = Some bm2 /\
    Bitmap.WriteFree [xe0; x0f] 3 9 = Some bm2 /\
    length bm2 = length [xe0; x0f] /\
    (forall s, slot bm2 s = if (3 <=? s) && (s <? 3 + 9) then false
                            else slot [xe0; x0f] s) /\
    (bm2 = [xe0; x0f] <-> free_run [xe0; x0f] 3 9).
Proof.
  assert (H : 0 <= 3 /\ 0 <= 9 /\ 3 + 9 <= slots [xe0; x0f] /\
              3 < slots [xe0; x0f] /\ slice_ok [xe0; x0f]).
  { unfold slice_ok, slots, len, max_int64. simpl. lia. }
  split; [exact H|].
  destruct H as (H1 & H2 & H3 & H4 & H5).
  exact (WriteInUse_WriteFree_roundtrip [xe0; x0f] 3 9 H1 H2 H3 H4 H5).
Defined.

(** C3 as stated fails: marking and then clearing a range that held
    occupied slots loses them ([0xff] comes back as [0x00]); and at
    [p = 8*|bm|], [l = 0] the first byte access of [WriteInUse] is out of range. *)
Lemma WriteInUse_WriteFree_roundtrip_counterexample :
  (0 <= 0 /\ 0 <= 8 /\ 0 + 8 <= slots [xff]) /\
  Bitmap.WriteInUse [xff] 0 8 = Some [xff] /\
  Bitmap.WriteFree [xff] 0 8 = Some [x00] /\
  [x00] <> [xff] /\
  (0 <= 8 /\ 0 <= 0 /\ 8 + 0 <= slots [xff]) /\
  Bitmap.WriteInUse [xff] 8 0 = None.
Proof.
  repeat split; try (unfold slots, len; simpl; lia); try reflexivity.
  discriminate.
Qed.

(** C1 (the code departs from it). [findFreeSpot8] tests the next byte with
    the mask [B << (8-i)] where the run needs the top [lng - i] bits
    ([B << i]).  For eight bytes of 0xAA and [lng = 2] the search answers
    slot 7 although slot 8 is occupied and no free run of length 2 exists;
    for [0xE0 0x20 0x00] and [lng = 6] it answers slot 11 although the
    slots [3, 9) are free. *)
Theorem FindFreeSpot_fragmented :
  (Bitmap.FindFreeSpot (repeat xaa 8%nat) 2 = Some (7, true) /\
   slot (repeat xaa 8%nat) 7 = false /\
   slot (repeat xaa 8%nat) 8 = true /\
   (forall q, 0 <= q -> q + 2 <= slots (repeat xaa 8%nat) ->
      ~ free_run (repeat xaa 8%nat) q 2)) /\
  (Bitmap.FindFreeSpot [xe0; x20; x00] 6 = Some (11, true) /\
   3 + 6 <= slots [xe0; x20; x00] /\
   free_run [xe0; x20; x00] 3 6).
Proof.
  split.
  - split; [reflexivity|]. split; [reflexivity|]. split; [reflexivity|].
    intros q Hq0 Hq1 Hfree. unfold slots, len in Hq1. simpl in Hq1.
    pose proof (Hfree q ltac:(lia)) as Ha.
    pose proof (Hfree (q + 1) ltac:(lia)) as Hb.
    assert (Hs : forall s, 0 <= s < 64 -> slot (repeat xaa 8%nat) s = Z.even s).
    { intros s Hs.
      assert (Hcases : exists a b, s = 8 * a + b /\ 0 <= a < 8 /\ 0 <= b < 8).
      { exists (s / 8), (s mod 8).
        pose proof (Z.div_mod s 8 ltac:(lia)).
        pose proof (Z.mod_pos_bound s 8 ltac:(lia)). lia. }
      destruct Hcases as (a & b & -> & Ha8 & Hb8).
      small_cases a; try lia; small_cases b; try lia; reflexivity. }
    rewrite Hs in Ha by lia. rewrite Hs in Hb by lia.
    rewrite Z.even_add in Hb. simpl in Hb.
    destruct (Z.even q); discriminate.
  - split; [reflexivity|]. split; [unfold slots, len; simpl; lia|].
    intros s Hs.
    assert (Hc : s = 3 \/ s = 4 \/ s = 5 \/ s = 6 \/ s = 7 \/ s = 8) by lia.
    destruct Hc as [->|[->|[->|[->|[->| ->]]]]]; reflexivity.
Qed.

(** ** The allocator *)

Import Filealloc MemStore.

(** C4. On a fresh empty store with 8-byte blocks, one bitmap block and one
    prefix block ([R = 64], [C = 65]), whatever the flags and whether or not
    the store can be mapped: [Init] leaves one chunk; the first
    [AllocateBlocks(64, true)] returns block 2; the second appends a chunk
    ([ChunksN] becomes 2) and returns block 67, which is what a scan of all
    chunks from chunk 0 ([doAllocate]) gives after [appendAllocator]. *)
Theorem AllocateBlocks_growth_scenario (mm nommap nomsync nofsync : bool) :
  let f := scenario_cfg nommap nomsync nofsync in
  RunSizeInBlocks f = 64 /\ ChunkSizeInBlocks f = 65 /\
  exists pa0 pa1 pa1' pa2,
    Init 1 (fresh f mm) = Done (tt, pa0) /\
    ChunksN pa0 = 1 /\
    (forall fuel, AllocateBlocks (S fuel) 64 true pa0 = Done ((2, true, None), pa1)) /\
    ChunksN pa1 = 1 /\
    (forall fuel, AllocateBlocks (S (S fuel)) 64 true pa1 = Done ((67, true, None), pa2)) /\
    ChunksN pa2 = 2 /\
    doAllocate 64 pa1 = Done ((0, false, Some EXTHAUSTED), pa1) /\
    appendAllocator pa1 = Done (None, pa1') /\
    doAllocate 64 pa1' = Done ((67, true, None), pa2).
Proof.
  intros f. split; [reflexivity|]. split; [reflexivity|].
  destruct mm, nommap, nomsync, nofsync;
    (eexists; eexists; eexists; eexists;
     split; [vm_compute; reflexivity|];
     split; [reflexivity|];
     split; [intros fuel; vm_compute; reflexivity|];
     split; [reflexivity|];
     split; [intros fuel; vm_compute; reflexivity|];
     split; [reflexivity|];
     split; [vm_compute; reflexivity|];
     split; [vm_compute; reflexivity|];
     vm_compute; reflexivity).
Qed.

(** C2 (the code departs from it). One allocator, no close or reopen:
    allocations of 7, 1 and 1 blocks return blocks 2, 9 and 10; block 9 is
    freed; an allocation of 2 blocks then returns block 9, that is the range
    [9, 11), which contains block 10 of the third allocation, still held.
    The cause is the mask [B << (8-i)] of [findFreeSpot8]. *)
Theorem AllocateBlocks_overlap_after_free :
  exists pa0 pa1 pa2 pa3 pa4 pa5,
    Init 1 (fresh (scenario_cfg false false false) false) = Done (tt, pa0) /\
    AllocateBlocks 1 7 false pa0 = Done ((2, true, None), pa1) /\
    AllocateBlocks 1 1 false pa1 = Done ((9, true, None), pa2) /\
    AllocateBlocks 1 1 false pa2 = Done ((10, true, None), pa3) /\
    FreeBlocks 9 1 pa3 = Done (None, pa4) /\
    AllocateBlocks 1 2 false pa4 = Done ((9, true, None), pa5) /\
    map buffer (allocators pa4) = [[xfe; x80; x00; x00; x00; x00; x00; x00]] /\
    9 <= 10 < 9 + 2.
Proof.
  do 6 eexists.
  split; [vm_compute; reflexivity|].
  split; [vm_compute; reflexivity|].
  split; [vm_compute; reflexivity|].
  split; [vm_compute; reflexivity|].
  split; [vm_compute; reflexivity|].
  split; [vm_compute; reflexivity|].
  split; [reflexivity | lia].
Qed.

Section AnyStore.
Context {W : Type} {SM : StorageModel W}.

Ltac munfold :=
  cbv beta iota zeta delta
    [mbind mret M_bind M_ret bind ret get put lift panic
     allocator_at set_allocators fst snd].

(** C5. Whatever the allocator state, the store, the fuel and [grow]: for
    [lng > RunSizeInBlocks], [AllocateBlocks] returns
    [(0, false, EXCEEDMAX)] at once, and the allocator is as before: same
    bitmap buffers, same store, no call made on the store or the mapper. *)
Theorem AllocateBlocks_exceed_max (pa : PageAllocator W) fuel lng grow :
  RunSizeInBlocks (Config pa) < lng ->
  AllocateBlocks fuel lng grow pa = Done ((0, false, Some EXCEEDMAX), pa).
Proof.
  intros H. unfold AllocateBlocks. munfold.
  destruct (Z.ltb_spec (RunSizeInBlocks (Config pa)) lng); [reflexivity | lia].
Qed.

(** C9. When [BreakAddress] answers [ok = false], or a chunk index
    [i >= ChunksN], [FreeBlocks] returns [nil] for every [lng] and the
    allocator is as before: same bitmap buffers, same store, no call made. *)
Theorem FreeBlocks_unknown_address (pa : PageAllocator W) blk lng i pos ok :
  BreakAddress (Config pa) blk = Some (i, pos, ok) ->
  ok = false \/ ChunksN pa <= i ->
  FreeBlocks blk lng pa = Done (None, pa).
Proof.
  intros HB Hcase. unfold FreeBlocks, doFree. munfold. rewrite HB.
  destruct ok; simpl; [|reflexivity].
  destruct Hcase as [|Hi]; [discriminate|]. unfold ChunksN in Hi.
  destruct (Z.ltb_spec i (len (allocators pa))); [lia | reflexivity].
Qed.

(** C10. For a negative chunk index [MemSyncIfMmapped] does not return: the
    test [len(pa.allocators) <= chunk] lets it through and
    [pa.allocators[chunk]] panics. *)
Theorem MemSyncIfMmapped_negative (pa : PageAllocator W) c :
  c < 0 -> MemSyncIfMmapped c pa = Panic.
Proof.
  intros Hc. unfold MemSyncIfMmapped. munfold.
  assert (0 <= len (allocators pa)) by (unfold len; lia).
  destruct (Z.leb_spec (len (allocators pa)) c); [lia|].
  unfold at_index. destruct (Z.ltb_spec c 0); [reflexivity | lia].
Qed.

Lemma call_done {A} (c : Call) (f : W -> W * A) (pa : PageAllocator W) :
  exists a pa', call c f pa = Done (a, pa') /\ allocators pa' = allocators pa
                /\ Config pa' = Config pa.
Proof.
  unfold call. destruct (f (world (Storage pa))) as [w a].
  eexists _, _. split; [reflexivity|]. split; reflexivity.
Qed.

(** The write-back does not panic on a chunk the allocator knows. *)
Lemma persist_done (pa : PageAllocator W) i b err :
  at_index (allocators pa) i = Some b ->
  exists e pa', persist i err pa = Done (e, pa').
Proof.
  intros Hb. unfold persist. munfold. rewrite Hb. munfold.
  destruct (mmapped b); simpl.
  - destruct (DontMsync (Config pa)); simpl.
    + eexists _, _. reflexivity.
    + destruct (call_done (CallFlushMap (buffer b))
                  (fun w => FlushMap w (buffer b)) pa) as (a & pa' & E & _).
      rewrite E. eexists _, _. reflexivity.
  - munfold. destruct (call_done (CallWriteAt (buffer b) (rawoff b))
                (fun w => WriteAt w (buffer b) (rawoff b)) pa) as (a & pa1 & E & _).
    rewrite E.
    destruct (DontFsync (Config pa)); simpl.
    + eexists _, _. reflexivity.
    + destruct (call_done CallSync (fun w => Sync w) pa1) as (a2 & pa2 & E2 & _).
      rewrite E2. eexists _, _. reflexivity.
Qed.

End AnyStore.

(** ** Address arithmetic *)

(** The run size the code computes is [M * 2^B * 8] whenever that number is
    positive and fits [int64]. *)
Lemma RunSizeInBlocks_exact f :
  0 < u8 (BitmapBlocks f) * 2 ^ u8 (BlockSizeLog f) * 8 <= max_int64 ->
  RunSizeInBlocks f = u8 (BitmapBlocks f) * 2 ^ u8 (BlockSizeLog f) * 8.
Proof.
  unfold RunSizeInBlocks.
  pose proof (u8_range (BitmapBlocks f)) as HM.
  pose proof (u8_range (BlockSizeLog f)) as HB.
  set (M := u8 (BitmapBlocks f)) in *. set (B := u8 (BlockSizeLog f)) in *.
  intros HR. unfold max_int64 in HR.
  assert (Hpow : 0 < 2 ^ B) by (apply Z.pow_pos_nonneg; lia).
  assert (HM1 : 1 <= M) by nia.
  assert (HB59 : B <= 59).
  { destruct (Z.le_gt_cases B 59) as [|Hgt]; [assumption|]. exfalso.
    assert (2 ^ 60 <= 2 ^ B) by (apply Z.pow_le_mono_r; lia).
    assert (2 ^ B <= M * 2 ^ B) by nia. lia. }
  unfold wrap8. rewrite Z.mod_small by lia.
  unfold shl64. destruct (Z.leb_spec 64 (B + 3)); [lia|].
  rewrite Z.shiftl_mul_pow2 by lia.
  rewrite Z.pow_add_r by lia. change (2 ^ 3) with 8.
  rewrite Z.mul_assoc. apply wrap64_id. unfold min_int64, max_int64. lia.
Qed.

(** C8. Deterministic address math: for a configuration with
    [R = M*2^B*8 > 0], a chunk index [c >= 0] and a slot [0 <= p < R], when
    the chunk size [R + M] and the address [P + c*(R+M) + M + p] fit [int64]
    (no step overflows), [BreakAddress (MakeAddress c p) = (c, p, true)]. *)
Theorem BreakAddress_MakeAddress f c p :
  0 < u8 (BitmapBlocks f) * 2 ^ u8 (BlockSizeLog f) * 8 ->
  0 <= c ->
  0 <= p < u8 (BitmapBlocks f) * 2 ^ u8 (BlockSizeLog f) * 8 ->
  u8 (BitmapBlocks f) * 2 ^ u8 (BlockSizeLog f) * 8 + u8 (BitmapBlocks f)
    <= max_int64 ->
  u8 (PrefixBlocks f)
    + c * (u8 (BitmapBlocks f) * 2 ^ u8 (BlockSizeLog f) * 8 + u8 (BitmapBlocks f))
    + u8 (BitmapBlocks f) + p <= max_int64 ->
  BreakAddress f (MakeAddress f c p) = Some (c, p, true).
Proof.
  intros HR Hc Hp HC Hmax.
  pose proof (u8_range (BitmapBlocks f)) as HM.
  pose proof (u8_range (PrefixBlocks f)) as HP.
  assert (ER : RunSizeInBlocks f = u8 (BitmapBlocks f) * 2 ^ u8 (BlockSizeLog f) * 8).
  { apply RunSizeInBlocks_exact. lia. }
  unfold BreakAddress, MakeAddress, ChunkSizeInBlocks. rewrite ER.
  set (M := u8 (BitmapBlocks f)) in *. set (P := u8 (PrefixBlocks f)) in *.
  set (R := M * 2 ^ u8 (BlockSizeLog f) * 8) in *.
  unfold max_int64 in *.
  assert (HcC : 0 <= c * (R + M)) by nia.
  rewrite (add64_id R M) by (unfold min_int64, max_int64; lia).
  unfold mul64. rewrite (wrap64_id (c * (R + M))) by (unfold min_int64, max_int64; lia).
  rewrite (add64_id P) by (unfold min_int64, max_int64; lia).
  rewrite (add64_id _ M) by (unfold min_int64, max_int64; lia).
  rewrite (add64_id _ p) by (unfold min_int64, max_int64; lia).
  rewrite (sub64_id _ P) by (unfold min_int64, max_int64; lia).
  replace (P + c * (R + M) + M + p - P) with (c * (R + M) + (M + p)) by lia.
  destruct (Z.ltb_spec (c * (R + M) + (M + p)) 0); [lia|].
  destruct (Z.eqb_spec (R + M) 0); [lia|].
  rewrite Z.quot_div_nonneg, Z.rem_mod_nonneg by lia.
  rewrite Z.div_add_l by lia. rewrite (Z.div_small (M + p)) by lia.
  rewrite (Z.add_comm (c * (R + M)) (M + p)), Z.mod_add by lia.
  rewrite Z.mod_small by lia. rewrite Z.add_0_r.
  rewrite wrap64_id by (unfold min_int64, max_int64; lia).
  rewrite sub64_id by (unfold min_int64, max_int64; lia).
  replace (M + p - M) with p by lia.
  destruct (Z.leb_spec 0 p); [reflexivity | lia].
Qed.

Lemma BreakAddress_MakeAddress_witness :
  let f := scenario_cfg false false false in
  (0 < u8 (BitmapBlocks f) * 2 ^ u8 (BlockSizeLog f) * 8 /\
   0 <= 1 /\
   0 <= 5 < u8 (BitmapBlocks f) * 2 ^ u8 (BlockSizeLog f) * 8 /\
   u8 (BitmapBlocks f) * 2 ^ u8 (BlockSizeLog f) * 8 + u8 (BitmapBlocks f)
     <= max_int64 /\
   u8 (PrefixBlocks f)
     + 1 * (u8 (BitmapBlocks f) * 2 ^ u8 (BlockSizeLog f) * 8 + u8 (BitmapBlocks f))
     + u8 (BitmapBlocks f) + 5 <= max_int64) /\
  BreakAddress f (MakeAddress f 1 5) = Some (1, 5, true).
Proof.
  intros f.
  assert (H : 0 < u8 (BitmapBlocks f) * 2 ^ u8 (BlockSizeLog f) * 8 /\
   0 <= 1 /\
   0 <= 5 < u8 (BitmapBlocks f) * 2 ^ u8 (BlockSizeLog f) * 8 /\
   u8 (BitmapBlocks f) * 2 ^ u8 (BlockSizeLog f) * 8 + u8 (BitmapBlocks f)
     <= max_int64 /\
   u8 (PrefixBlocks f)
     + 1 * (u8 (BitmapBlocks f) * 2 ^ u8 (BlockSizeLog f) * 8 + u8 (BitmapBlocks f))
     + u8 (BitmapBlocks f) + 5 <= max_int64).
  { vm_compute. repeat split; discriminate. }
  split; [exact H|].
  destruct H as (H1 & H2 & H3 & H4 & H5).
  exact (BreakAddress_MakeAddress f 1 5 H1 H2 H3 H4 H5).
Defined.

(** ** Freeing *)

Lemma BreakAddress_pos_range f blk i pos :
  BreakAddress f blk = Some (i, pos, true) -> 0 <= pos <= max_int64.
Proof.
  unfold BreakAddress.
  destruct (sub64 blk (u8 (PrefixBlocks f)) <? 0); [discriminate|].
  destruct (ChunkSizeInBlocks f =? 0); [discriminate|].
  intros E. injection E as _ Hpos Hok. subst pos.
  apply Z.leb_le in Hok. split; [exact Hok | apply wrap64_range].
Qed.

(** The clipping of [FreeBitmap] is a minimum with the slots left from
    [pos] to the end of the buffer. *)
Lemma FreeBitmap_clip_min bm pos lng :
  0 <= pos <= max_int64 -> slice_ok bm ->
  Bitmap.FreeBitmap_clip bm pos lng = Z.min lng (slots bm - pos).
Proof.
  intros Hpos Hok. unfold Bitmap.FreeBitmap_clip, slice_ok, slots in *.
  assert (0 <= len bm) by (unfold len; lia).
  unfold max_int64 in *.
  rewrite (wrap64_id (len bm * 8)) by (unfold min_int64, max_int64; lia).
  rewrite sub64_id by (unfold min_int64, max_int64; lia).
  destruct (Z.ltb_spec (len bm * 8 - pos) lng); lia.
Qed.

Lemma set_index_Some {A} (l : list A) i v :
  0 <= i < len l ->
  set_index l i v = Some (<[Z.to_nat i := v]> l) /\
  at_index (<[Z.to_nat i := v]> l) i = Some v.
Proof.
  intros Hi. unfold set_index, at_index, len in *. rewrite length_insert.
  destruct (Z.ltb_spec i 0); [lia|].
  destruct (Z.leb_spec (Z.of_nat (length l)) i); [lia|]. simpl.
  split; [reflexivity|]. apply list_lookup_insert_eq. lia.
Qed.

Section Freeing.
Context {W : Type} {SM : StorageModel W}.

Ltac munfold :=
  cbv beta iota zeta delta
    [mbind mret M_bind M_ret bind ret get put lift panic
     allocator_at set_allocators fst snd].

Lemma set_buffer_done (pa : PageAllocator W) i b bm :
  at_index (allocators pa) i = Some b ->
  exists pa',
    set_buffer i bm pa = Done (tt, pa') /\
    at_index (allocators pa') i
      = Some {| buffer := bm; rawoff := rawoff b; mmapped := mmapped b |}.
Proof.
  intros Hb. destruct (at_index_inv _ _ _ Hb) as [Hi _].
  destruct (set_index_Some (allocators pa) i
              {| buffer := bm; rawoff := rawoff b; mmapped := mmapped b |} Hi)
    as [Es Ea].
  unfold set_buffer. munfold. rewrite Hb. munfold. rewrite Es.
  eexists. split; [reflexivity | exact Ea].
Qed.

(** C6 (as the code has it). For [blk] with
    [BreakAddress blk = (i, pos, true)] and a chunk index [0 <= i < ChunksN],
    [b] the buffer of chunk [i], and every [lng]: [FreeBitmap] clips [lng]
    to [min lng (8*|bm| - pos)], calls [WriteFree] only when the clipped
    length is positive, then with [pos >= 0] and [pos + lng' <= 8*|bm|];
    [FreeBitmap] does not panic and [FreeBlocks] returns. *)
Theorem FreeBlocks_in_range (pa : PageAllocator W) blk lng i pos b :
  BreakAddress (Config pa) blk = Some (i, pos, true) ->
  0 <= i < ChunksN pa ->
  at_index (allocators pa) i = Some b ->
  slice_ok (buffer b) ->
  Bitmap.FreeBitmap_clip (buffer b) pos lng = Z.min lng (slots (buffer b) - pos) /\
  Bitmap.FreeBitmap (buffer b) pos lng =
    (if 0 <? Bitmap.FreeBitmap_clip (buffer b) pos lng
     then Bitmap.WriteFree (buffer b) pos (Bitmap.FreeBitmap_clip (buffer b) pos lng)
     else Some (buffer b)) /\
  (0 < Bitmap.FreeBitmap_clip (buffer b) pos lng ->
     0 <= pos /\ pos + Bitmap.FreeBitmap_clip (buffer b) pos lng <= slots (buffer b)) /\
  (exists bm', Bitmap.FreeBitmap (buffer b) pos lng = Some bm') /\
  (exists err pa', FreeBlocks blk lng pa = Done (err, pa')).
Proof.
  intros HB Hi Hb Hok.
  pose proof (BreakAddress_pos_range _ _ _ _ HB) as Hpos.
  pose proof (FreeBitmap_clip_min (buffer b) pos lng Hpos Hok) as Hclip.
  assert (Hfree : exists bm', Bitmap.FreeBitmap (buffer b) pos lng = Some bm').
  { unfold Bitmap.FreeBitmap.
    destruct (Z.ltb_spec 0 (Bitmap.FreeBitmap_clip (buffer b) pos lng)) as [Hc|Hc].
    - rewrite WriteFree_gen.
      destruct (write_gen_written false (buffer b) pos
                  (Bitmap.FreeBitmap_clip (buffer b) pos lng))
        as (bm' & E & _); try lia; try assumption.
      exists bm'. exact E.
    - exists (buffer b). reflexivity. }
  split; [exact Hclip|]. split; [reflexivity|]. split; [lia|].
  split; [exact Hfree|].
  destruct Hfree as [bm' Hbm'].
  unfold FreeBlocks, doFree. munfold. rewrite HB. munfold. simpl negb. cbv iota.
  unfold ChunksN in Hi.
  destruct (Z.ltb_spec i (len (allocators pa))); [|lia].
  cbn [negb]. cbv beta iota.
  rewrite Hb. munfold. rewrite Hbm'. munfold.
  destruct (set_buffer_done pa i b bm' Hb) as (pa1 & E1 & Hb1).
  rewrite E1.
  destruct (persist_done pa1 i _ None Hb1) as (e & pa2 & E2).
  rewrite E2. exists e, pa2. reflexivity.
Qed.

End Freeing.

Lemma FreeBlocks_in_range_witness :
  let pa := one_chunk (scenario_cfg false false false) in
  let b := {| buffer := repeat x00 8%nat; rawoff := 8; mmapped := false |} in
  (BreakAddress (Config pa) 60 = Some (0, 58, true) /\
   0 <= 0 < ChunksN pa /\
   at_index (allocators pa) 0 = Some b /\
   slice_ok (buffer b)) /\
  Bitmap.FreeBitmap_clip (buffer b) 58 100 = Z.min 100 (slots (buffer b) - 58) /\
  Bitmap.FreeBitmap (buffer b) 58 100 =
    (if 0 <? Bitmap.FreeBitmap_clip (buffer b) 58 100
     then Bitmap.WriteFree (buffer b) 58 (Bitmap.FreeBitmap_clip (buffer b) 58 100)
     else Some (buffer b)) /\
  (0 < Bitmap.FreeBitmap_clip (buffer b) 58 100 ->
     0 <= 58 /\ 58 + Bitmap.FreeBitmap_clip (buffer b) 58 100 <= slots (buffer b)) /\
  (exists bm', Bitmap.FreeBitmap (buffer b) 58 100 = Some bm') /\
  (exists err pa', FreeBlocks 60 100 pa = Done (err, pa')).
Proof.
  intros pa b.
  assert (H : BreakAddress (Config pa) 60 = Some (0, 58, true) /\
              0 <= 0 < ChunksN pa /\
              at_index (allocators pa) 0 = Some b /\
              slice_ok (buffer b)).
  { split; [reflexivity|]. split; [unfold ChunksN, len; simpl; lia|].
    split; [reflexivity|]. unfold slice_ok, slots, len, max_int64; simpl; lia. }
  split; [exact H|].
  destruct H as (H1 & H2 & H3 & H4).
  exact (FreeBlocks_in_range pa 60 100 0 58 b H1 H2 H3 H4).
Defined.

(** C6 as stated fails where the chunk size overflows: with blocks of
    [2^59] bytes and three bitmap blocks the chunk size is [3 - 2^62], and
    block [2^62] breaks into chunk [-1], slot 0, [ok = true]; [-1] is below
    [ChunksN] and [pa.allocators[-1]] panics, on an allocator as constructed
    (no chunk yet) as on one that holds a chunk. *)
Lemma FreeBlocks_in_range_counterexample :
  ChunkSizeInBlocks overflow_cfg = 3 - 2 ^ 62 /\
  BreakAddress overflow_cfg (2 ^ 62) = Some (-1, 0, true) /\
  -1 < ChunksN (fresh overflow_cfg false) /\
  FreeBlocks (2 ^ 62) 1 (fresh overflow_cfg false) = Panic /\
  -1 < ChunksN (one_chunk overflow_cfg) /\
  FreeBlocks (2 ^ 62) 1 (one_chunk overflow_cfg) = Panic.
Proof. repeat split; reflexivity. Qed.

Lemma AllocateBlocks_exceed_max_witness :
  let pa := one_chunk (scenario_cfg false false false) in
  RunSizeInBlocks (Config pa) < 65 /\
  AllocateBlocks 0 65 true pa = Done ((0, false, Some EXCEEDMAX), pa).
Proof.
  intros pa.
  assert (H : RunSizeInBlocks (Config pa) < 65) by reflexivity.
  split; [exact H|].
  exact (AllocateBlocks_exceed_max pa 0%nat 65 true H).
Defined.

Lemma FreeBlocks_unknown_address_witness :
  let pa := one_chunk (scenario_cfg false false false) in
  (BreakAddress (Config pa) 70 = Some (1, 3, true) /\
   (true = false \/ ChunksN pa <= 1)) /\
  FreeBlocks 70 4 pa = Done (None, pa).
Proof.
  intros pa.
  assert (H : BreakAddress (Config pa) 70 = Some (1, 3, true) /\
              (true = false \/ ChunksN pa <= 1)).
  { split; [reflexivity|]. right. vm_compute. discriminate. }
  split; [exact H|].
  destruct H as (H1 & H2).
  exact (FreeBlocks_unknown_address pa 70 4 1 3 true H1 H2).
Defined.

Lemma MemSyncIfMmapped_negative_witness :
  -1 < 0 /\
  MemSyncIfMmapped (-1) (one_chunk (scenario_cfg false false false)) = Panic.
Proof.
  assert (H : -1 < 0) by reflexivity.
  split; [exact H|].
  exact (MemSyncIfMmapped_negative (one_chunk (scenario_cfg false false false)) (-1) H).
Defined.

(** * Further properties of the code *)

(** ** Panics of the bit-writing primitives *)

Lemma at_index_None {A} (l : list A) i : len l <= i -> at_index l i = None.
Proof.
  intros Hi. unfold at_index.
  destruct (Z.ltb_spec i 0); [reflexivity|].
  destruct (Z.leb_spec (len l) i); [reflexivity | lia].
Qed.

Lemma set_index_None {A} (l : list A) i v : len l <= i -> set_index l i v = None.
Proof.
  intros Hi. unfold set_index.
  destruct (Z.ltb_spec i 0); [reflexivity|].
  destruct (Z.leb_spec (len l) i); [reflexivity | lia].
Qed.

Lemma apply_at_None v bm k m : len bm <= k -> apply_at v bm k m = None.
Proof.
  intros Hk. destruct v; unfold apply_at, Bitmap.or_at, Bitmap.andnot_at;
    rewrite at_index_None by exact Hk; reflexivity.
Qed.

(** The test [((lng+n)>>3) == 0] decides [lng + n < 8] for every [int64]
    length, also where [lng + n] wraps around. *)
Lemma single_byte_test l n :
  0 <= l <= max_int64 -> 0 <= n < 8 ->
  (shr64 (add64 l n) 3 =? 0) = (l + n <? 8).
Proof.
  intros Hl Hn. rewrite shr64_3. unfold max_int64 in Hl.
  destruct (Z.le_gt_cases (l + n) max_int64) as [Hfit|Hwrap]; unfold max_int64 in *.
  - rewrite add64_id by (unfold min_int64, max_int64; lia).
    pose proof (Z.div_mod (l + n) 8 ltac:(lia)).
    pose proof (Z.mod_pos_bound (l + n) 8 ltac:(lia)).
    destruct (Z.eqb_spec ((l + n) / 8) 0); destruct (Z.ltb_spec (l + n) 8);
      try reflexivity; lia.
  - assert (E : add64 l n = l + n - 2 ^ 64).
    { unfold add64, wrap64.
      replace (l + n + 2 ^ 63) with (l + n - 2 ^ 63 + 1 * 2 ^ 64) by lia.
      rewrite Z.mod_add by lia. rewrite Z.mod_small by lia. lia. }
    rewrite E.
    pose proof (Z.div_mod (l + n - 2 ^ 64) 8 ltac:(lia)).
    pose proof (Z.mod_pos_bound (l + n - 2 ^ 64) 8 ltac:(lia)).
    destruct (Z.eqb_spec ((l + n - 2 ^ 64) / 8) 0); destruct (Z.ltb_spec (l + n) 8);
      try reflexivity; lia.
Qed.

(** The fill loop on a range that runs past the buffer: it panics, or stops
    at the end of the buffer with a tail still to write. *)
Lemma fill_loop_overrun v fuel : forall bm pos lng,
  pos mod 8 = 0 -> 0 <= pos -> 0 <= lng <= max_int64 ->
  slots bm < pos + lng -> (pos <= slots bm \/ 8 <= lng) ->
  slice_ok bm -> lng / 8 <= Z.of_nat fuel ->
  match Bitmap.fill_loop fuel (fill_byte v) bm pos lng with
  | None => True
  | Some (bm', pos', lng') => 0 < lng' < 8 /\ len bm' <= pos' / 8
  end.
Proof.
  assert (Hstop : forall (bm : list byte) pos lng,
            pos mod 8 = 0 -> 0 <= pos -> 0 <= lng -> lng < 8 ->
            8 * len bm < pos + lng -> pos <= 8 * len bm \/ 8 <= lng ->
            0 < lng < 8 /\ len bm <= pos / 8).
  { intros bm pos lng Hal Hp Hl Hlt Hover Hcase.
    pose proof (Z.div_mod pos 8 ltac:(lia)). lia. }
  induction fuel as [|fuel IH]; intros bm pos lng Hal Hp Hl Hover Hcase Hok Hfuel;
    pose proof (Z.div_mod lng 8 ltac:(lia)) as Hdm;
    pose proof (Z.mod_pos_bound lng 8 ltac:(lia)) as Hmb;
    pose proof (Z.div_mod pos 8 ltac:(lia)) as Hdp;
    unfold slice_ok, slots, max_int64 in *;
    simpl; destruct (Z.leb_spec 8 lng) as [Hge|Hlt].
  - lia.
  - apply Hstop; lia.
  - destruct (Z.le_gt_cases (len bm) (pos / 8)) as [Hout|Hin].
    + rewrite shr64_3, set_index_None by exact Hout. exact I.
    + destruct (set_index_written v bm pos Hp Hal ltac:(unfold slots; lia))
        as (bm1 & E1 & W1).
      rewrite shr64_3, E1. simpl.
      pose proof (written_length _ _ _ _ _ W1) as L1.
      rewrite add64_id, sub64_id by (unfold min_int64, max_int64; lia).
      apply IH; rewrite ?L1; try lia.
      * rewrite <- Z.add_mod_idemp_l, Hal by lia. reflexivity.
      * pose proof (Z.div_mod (lng - 8) 8 ltac:(lia)).
        pose proof (Z.mod_pos_bound (lng - 8) 8 ltac:(lia)). lia.
  - apply Hstop; lia.
Qed.

Lemma write_gen_overrun v bm p l :
  0 <= p <= max_int64 -> 0 <= l <= max_int64 -> slice_ok bm ->
  slots bm <= p \/ slots bm < p + l ->
  write_gen v bm p l = None.
Proof.
  intros Hp Hl Hok Hout.
  pose proof Hok as Hok'. unfold slice_ok, max_int64, slots in Hok'.
  pose proof (Z.div_mod p 8 ltac:(lia)) as Hdm.
  pose proof (Z.mod_pos_bound p 8 ltac:(lia)) as Hmb.
  unfold write_gen.
  destruct (Z.ltb_spec p 0); [lia|]. destruct (Z.ltb_spec l 0); [lia|]. simpl.
  rewrite land_7, single_byte_test by lia. rewrite !shr64_3.
  unfold max_int64, slots in *.
  destruct (Z.ltb_spec (l + p mod 8) 8) as [Hsmall|Hbig].
  - apply apply_at_None. lia.
  - assert (Hlead :
      (if negb (p mod 8 =? 0)
       then bm' ← apply_at v bm (p / 8) (shr8 xff (wrapU64 (p mod 8)));
            Some (bm', add64 p (sub64 8 (p mod 8)), sub64 l (sub64 8 (p mod 8)))
       else Some (bm, p, l)) = None \/
      exists bm1 p1 l1,
      (if negb (p mod 8 =? 0)
       then bm' ← apply_at v bm (p / 8) (shr8 xff (wrapU64 (p mod 8)));
            Some (bm', add64 p (sub64 8 (p mod 8)), sub64 l (sub64 8 (p mod 8)))
       else Some (bm, p, l)) = Some (bm1, p1, l1) /\
      len bm1 = len bm /\ p1 mod 8 = 0 /\ 0 <= p1 /\ 0 <= l1 <= 2 ^ 63 - 1 /\
      8 * len bm < p1 + l1 /\ (p1 <= 8 * len bm \/ 8 <= l1)).
    { destruct (Z.eqb_spec (p mod 8) 0) as [Hz|Hnz]; simpl.
      - right. exists bm, p, l. split; [reflexivity|]. repeat split; try lia.
      - destruct (Z.le_gt_cases (len bm) (p / 8)) as [Ho|Hi].
        + left. rewrite apply_at_None by exact Ho. reflexivity.
        + right.
          destruct (apply_at_written v bm (p / 8)
                      (shr8 xff (wrapU64 (p mod 8))) (p mod 8) 8)
            as (bm1 & E & Wr); try lia.
          { intros t Ht. rewrite mask_tail by lia. zbool. }
          rewrite E. simpl.
          rewrite (sub64_id 8) by (unfold min_int64, max_int64; lia).
          rewrite add64_id, sub64_id by (unfold min_int64, max_int64; lia).
          exists bm1, (p + (8 - p mod 8)), (l - (8 - p mod 8)).
          split; [reflexivity|].
          split; [apply (written_length _ _ _ _ _ Wr)|].
          split.
          { replace (p + (8 - p mod 8)) with (8 * (p / 8 + 1)) by lia.
            rewrite Z.mul_comm, Z.mod_mul by lia. reflexivity. }
          repeat split; try lia. }
    destruct Hlead as [E|(bm1 & p1 & l1 & E & L1 & Hal1 & Hp1 & Hl1 & Hov & Hc)];
      rewrite E; [reflexivity|]. simpl.
    pose proof (fill_loop_overrun v (Z.to_nat l1) bm1 p1 l1 Hal1 Hp1
                  ltac:(unfold max_int64; lia)) as Hfill.
    specialize (Hfill ltac:(unfold slots; lia) ltac:(unfold slots; lia)
                      ltac:(unfold slice_ok, slots, max_int64; lia)
                      (fill_loop_fuel_enough l1 ltac:(lia))).
    destruct (Bitmap.fill_loop (Z.to_nat l1) (fill_byte v) bm1 p1 l1)
      as [[[bm2 p2] l2]|]; [|reflexivity]. simpl.
    destruct Hfill as [Hl2 Hp2].
    destruct (Z.ltb_spec 0 l2); [|lia].
    rewrite shr64_3. apply apply_at_None. exact Hp2.
Qed.

(** Whether the primitive panics, for [int64] arguments on a Go slice. *)
Lemma write_gen_None_iff v bm p l :
  slice_ok bm -> p <= max_int64 -> l <= max_int64 ->
  (write_gen v bm p l = None <->
   p < 0 \/ l < 0 \/ slots bm < p + l \/ slots bm <= p).
Proof.
  intros Hok Hp Hl. split.
  - intros HN.
    destruct (Z.lt_ge_cases p 0); [lia|]. destruct (Z.lt_ge_cases l 0); [lia|].
    destruct (Z.lt_ge_cases (slots bm) (p + l)); [lia|].
    destruct (Z.le_gt_cases (slots bm) p); [lia|].
    destruct (write_gen_written v bm p l) as (bm' & E & _); try lia; try assumption.
    congruence.
  - intros [H|[H|H]].
    + unfold write_gen. destruct (Z.ltb_spec p 0); [reflexivity | lia].
    + unfold write_gen. destruct (Z.ltb_spec l 0); [|lia].
      rewrite orb_true_r. reflexivity.
    + destruct (Z.lt_ge_cases p 0).
      { unfold write_gen. destruct (Z.ltb_spec p 0); [reflexivity | lia]. }
      destruct (Z.lt_ge_cases l 0).
      { unfold write_gen. destruct (Z.ltb_spec l 0); [|lia].
        rewrite orb_true_r. reflexivity. }
      apply write_gen_overrun; try assumption; lia.
Qed.

(** X1. [WriteInUse] and [WriteFree] panic exactly on the arguments out of
    range: for [int64] [pos], [lng] on a Go slice, the call panics if and
    only if [pos < 0], [lng < 0], [pos + lng > 8*|bm|] or [pos >= 8*|bm|]
    (the last also with [lng = 0]). *)
Theorem WriteInUse_WriteFree_panic_iff bm p l :
  slice_ok bm -> p <= max_int64 -> l <= max_int64 ->
  (Bitmap.WriteInUse bm p l = None <->
     p < 0 \/ l < 0 \/ slots bm < p + l \/ slots bm <= p) /\
  (Bitmap.WriteFree bm p l = None <->
     p < 0 \/ l < 0 \/ slots bm < p + l \/ slots bm <= p).
Proof.
  intros Hok Hp Hl. rewrite WriteInUse_gen, WriteFree_gen.
  split; apply write_gen_None_iff; assumption.
Qed.

Lemma WriteInUse_WriteFree_panic_iff_witness :
  (slice_ok [x00; x00] /\ 5 <= max_int64 /\ 12 <= max_int64) /\
  (Bitmap.WriteInUse [x00; x00] 5 12 = None <->
     5 < 0 \/ 12 < 0 \/ slots [x00; x00] < 5 + 12 \/ slots [x00; x00] <= 5) /\
  (Bitmap.WriteFree [x00; x00] 5 12 = None <->
     5 < 0 \/ 12 < 0 \/ slots [x00; x00] < 5 + 12 \/ slots [x00; x00] <= 5).
Proof.
  assert (H : slice_ok [x00; x00] /\ 5 <= max_int64 /\ 12 <= max_int64).
  { unfold slice_ok, slots, len, max_int64. simpl. lia. }
  split; [exact H|]. destruct H as (H1 & H2 & H3).
  exact (WriteInUse_WriteFree_panic_iff [x00; x00] 5 12 H1 H2 H3).
Defined.

(** X2. Idempotence: for a range inside the buffer ([pos >= 0], [lng >= 0],
    [pos + lng <= 8*|bm|], [pos < 8*|bm|]) [WriteInUse bm pos lng] returns some
    [bm1] and a second [WriteInUse bm1 pos lng] returns [bm1] again; the same
    for [WriteFree]. *)
Theorem WriteInUse_WriteFree_idempotent bm p l :
  0 <= p -> 0 <= l -> p + l <= slots bm -> p < slots bm -> slice_ok bm ->
  (exists bm1, Bitmap.WriteInUse bm p l = Some bm1 /\
               Bitmap.WriteInUse bm1 p l = Some bm1) /\
  (exists bm0, Bitmap.WriteFree bm p l = Some bm0 /\
               Bitmap.WriteFree bm0 p l = Some bm0).
Proof.
  intros Hp Hl Hin Hlt Hok. rewrite !WriteInUse_gen, !WriteFree_gen.
  assert (G : forall v, exists bm1, write_gen v bm p l = Some bm1 /\
                                    write_gen v bm1 p l = Some bm1).
  { intros v.
    destruct (write_gen_written v bm p l) as (bm1 & E1 & W1); try assumption.
    pose proof (slots_written _ _ _ _ _ W1) as Hs.
    destruct (write_gen_written v bm1 p l) as (bm2 & E2 & W2); try lia.
    { unfold slice_ok in *. lia. }
    exists bm1. split; [exact E1|]. rewrite E2. f_equal.
    destruct W1 as [L1 S1], W2 as [L2 S2].
    apply buffer_ext; [exact L2|]. intros s. rewrite S2, S1.
    destruct ((p <=? s) && (s <? p + l)); reflexivity. }
  split.
  - destruct (G true) as (bm1 & E1 & E2). exists bm1.
    rewrite <- !WriteInUse_gen in *. rewrite !WriteInUse_gen. auto.
  - destruct (G false) as (bm1 & E1 & E2). exists bm1. auto.
Qed.

Lemma WriteInUse_WriteFree_idempotent_witness :
  (0 <= 3 /\ 0 <= 9 /\ 3 + 9 <= slots [x0f; xa5] /\ 3 < slots [x0f; xa5] /\
   slice_ok [x0f; xa5]) /\
  (exists bm1, Bitmap.WriteInUse [x0f; xa5] 3 9 = Some bm1 /\
               Bitmap.WriteInUse bm1 3 9 = Some bm1) /\
  (exists bm0, Bitmap.WriteFree [x0f; xa5] 3 9 = Some bm0 /\
               Bitmap.WriteFree bm0 3 9 = Some bm0).
Proof.
  assert (H : 0 <= 3 /\ 0 <= 9 /\ 3 + 9 <= slots [x0f; xa5] /\
              3 < slots [x0f; xa5] /\ slice_ok [x0f; xa5]).
  { unfold slice_ok, slots, len, max_int64. simpl. lia. }
  split; [exact H|]. destruct H as (H1 & H2 & H3 & H4 & H5).
  exact (WriteInUse_WriteFree_idempotent [x0f; xa5] 3 9 H1 H2 H3 H4 H5).
Defined.

(** ** The search for a free run *)

Lemma sbit_shr1 b t :
  0 <= t < 8 -> sbit (shr8 b 1) t = if t =? 0 then false else sbit b (t - 1).
Proof.
  intros Ht. unfold shr8. change (8 <=? 1) with false. cbv iota.
  rewrite sbit_byte_of by exact Ht. rewrite Z.shiftr_spec by lia.
  destruct (Z.eqb_spec t 0) as [->|Hne].
  - apply u8_testbit_high. lia.
  - unfold sbit. f_equal. lia.
Qed.

(** [(c & b) == 0]: no slot of [c] under the mask [b] is occupied. *)
Lemma band_zero_iff c b :
  byte_eqb (band c b) x00 = true <->
  (forall t, 0 <= t < 8 -> sbit b t = true -> sbit c t = false).
Proof.
  rewrite byte_eqb_eq. split.
  - intros E t Ht Hb.
    assert (Hs : sbit (band c b) t = false) by (rewrite E; apply sbit_x00).
    rewrite sbit_band, Hb, andb_true_r in Hs by exact Ht. exact Hs.
  - intros H. apply byte_ext. intros t Ht.
    rewrite sbit_band, sbit_x00 by exact Ht.
    destruct (sbit b t) eqn:Eb; [|apply andb_false_r].
    rewrite (H t Ht Eb). reflexivity.
Qed.

(** The inner loop: started at slot [k = 8 - i] with a mask covering
    [k, k+w) it stops at the first slot whose window is free, and returns
    [0] when no slot of the byte has one. *)
Lemma scan_spec c w : forall (i : nat) b k,
  k = 8 - Z.of_nat i -> 0 <= k ->
  (forall t, 0 <= t < 8 -> sbit b t = (k <=? t) && (t <? k + w)) ->
  (Bitmap.scan c b i <= i)%nat /\
  ((0 < Bitmap.scan c b i)%nat ->
     byte_window_free c (8 - Z.of_nat (Bitmap.scan c b i)) w) /\
  (forall k2, k <= k2 < 8 - Z.of_nat (Bitmap.scan c b i) ->
     ~ byte_window_free c k2 w).
Proof.
  induction i as [|i IH]; intros b k Hk Hk0 Hb; simpl.
  - split; [lia|]. split; [lia|]. intros k2 Hk2. lia.
  - destruct (byte_eqb (band c b) x00) eqn:E.
    + split; [lia|]. split.
      * intros _ t Ht Hw. apply band_zero_iff with (t := t) in E; [exact E | lia|].
        rewrite Hb by lia. zbool.
      * intros k2 Hk2. lia.
    + assert (Hnot : ~ byte_window_free c k w).
      { intros Hfree.
        assert (E2 : byte_eqb (band c b) x00 = true).
        { apply band_zero_iff. intros t Ht Hbt. rewrite Hb in Hbt by exact Ht.
          apply Hfree; revert Hbt; zbool; discriminate. }
        congruence. }
      destruct (IH (shr8 b 1) (k + 1)) as (H1 & H2 & H3); try lia.
      { intros t Ht. rewrite sbit_shr1 by exact Ht.
        destruct (Z.eqb_spec t 0) as [->|Hne]; [zbool|].
        rewrite Hb by lia. zbool. }
      split; [lia|]. split; [exact H2|].
      intros k2 Hk2. destruct (Z.eq_dec k2 k) as [->|Hne]; [exact Hnot|].
      apply H3. lia.
Qed.

(** The mask [B = 0xff << (8-lng)] of [findFreeSpot8]. *)
Lemma mask_short lng t :
  0 <= lng <= 8 -> 0 <= t < 8 ->
  sbit (shl8 xff (wrapU64 (8 - lng))) t = (0 <=? t) && (t <? 0 + lng).
Proof.
  intros Hl Ht.
  small_cases lng; try lia; small_cases t; try lia; vm_compute; reflexivity.
Qed.

Lemma mask_long t : 0 <= t < 8 -> sbit xff t = (0 <=? t) && (t <? 0 + 8).
Proof. intros Ht. rewrite sbit_xff by exact Ht. zbool. Qed.

Lemma lor_low a r : 0 <= r < 8 -> Z.lor (a * 8) r = a * 8 + r.
Proof.
  intros Hr.
  assert (Hland : Z.land (a * 8) r = 0).
  { apply Z.bits_inj'. intros n Hn. rewrite Z.land_spec, Z.bits_0.
    destruct (Z.lt_ge_cases n 3).
    - change 8 with (2 ^ 3). rewrite Z.mul_pow2_bits_low by lia. reflexivity.
    - rewrite <- (Z.mod_small r (2 ^ 3)) by (change (2 ^ 3) with 8; lia).
      rewrite Z.mod_pow2_bits_high by lia. apply andb_false_r. }
  rewrite <- Z.lxor_lor by exact Hland.
  symmetry. apply Z.add_nocarry_lxor. exact Hland.
Qed.

(** [int64(j<<3) | int64(8-i)] is slot [8 - i] of byte [j]. *)
Lemma spot_eq j (i : nat) :
  0 <= j -> 8 * j <= max_int64 -> (1 <= i <= 8)%nat ->
  Bitmap.spot j i = 8 * j + (8 - Z.of_nat i).
Proof.
  intros Hj Hmax Hi. unfold Bitmap.spot, max_int64 in *.
  rewrite Z.shiftl_mul_pow2 by lia. change (2 ^ 3) with 8.
  rewrite (wrap64_id (j * 8)) by (unfold min_int64, max_int64; lia).
  rewrite wrapU64_id by lia.
  rewrite wrap64_id by (unfold min_int64, max_int64; lia).
  rewrite lor_low by lia. lia.
Qed.

(** Byte [j] of the buffer, and the slots it holds. *)
Lemma drop_cons_inv (bm : list byte) (jn : nat) c rest :
  drop jn bm = c :: rest ->
  bm !! jn = Some c /\ drop (S jn) bm = rest /\ (jn < length bm)%nat.
Proof.
  intros E.
  assert (Hc : bm !! jn = Some c).
  { rewrite <- (Nat.add_0_r jn), <- lookup_drop, E. reflexivity. }
  split; [exact Hc|]. split.
  - rewrite (drop_S _ _ _ Hc) in E. congruence.
  - eapply lookup_lt_Some. exact Hc.
Qed.

Lemma window_free_run (bm : list byte) (jn : nat) c k w :
  bm !! jn = Some c -> 0 <= k -> k + w <= 8 ->
  (byte_window_free c k w <-> free_run bm (8 * Z.of_nat jn + k) w).
Proof.
  intros Hc Hk Hw. split.
  - intros Hfree s Hs.
    replace s with (8 * Z.of_nat jn + (s - 8 * Z.of_nat jn)) by lia.
    rewrite (slot_lookup bm jn c) by (try exact Hc; lia).
    apply Hfree; lia.
  - intros Hfree t Ht Htw.
    rewrite <- (slot_lookup bm jn c t) by (try exact Hc; lia).
    apply Hfree. lia.
Qed.

Lemma mod8_add j k : 0 <= k < 8 -> (8 * j + k) mod 8 = k.
Proof.
  intros Hk. rewrite Z.add_comm, Z.mul_comm, Z.mod_add by lia.
  apply Z.mod_small. exact Hk.
Qed.

Lemma drop_nil_length {A} (l : list A) n : drop n l = [] -> (length l <= n)%nat.
Proof.
  intros E. pose proof (length_drop l n) as H. rewrite E in H. simpl in H. lia.
Qed.

Lemma findFreeSpot8_loop_cons bm lng B j c rest :
  Bitmap.findFreeSpot8_loop bm lng B j (c :: rest) =
  if lng <=? Z.of_nat (Bitmap.scan c B 8)
  then Some (Bitmap.spot j (Bitmap.scan c B 8), true)
  else if (0 <? Z.of_nat (Bitmap.scan c B 8)) && (j <? len bm - 1) then
    c2 ← at_index bm (j + 1);
    if byte_eqb (band c2 (shl8 B (wrapU64 (8 - Z.of_nat (Bitmap.scan c B 8))))) x00
    then Some (Bitmap.spot j (Bitmap.scan c B 8), true)
    else Bitmap.findFreeSpot8_loop bm lng B (j + 1) rest
  else Bitmap.findFreeSpot8_loop bm lng B (j + 1) rest.
Proof. reflexivity. Qed.

(** [findFreeSpot8] from byte [jn] on, given that no run lying within one
    byte starts before byte [jn]. *)
Lemma findFreeSpot8_loop_spec bm lng :
  0 <= lng <= 8 -> slice_ok bm ->
  forall rest (jn : nat),
  drop jn bm = rest ->
  (forall q, 0 <= q < 8 * Z.of_nat jn -> within_byte q lng -> ~ free_run bm q lng) ->
  exists p ok,
    Bitmap.findFreeSpot8_loop bm lng (shl8 xff (wrapU64 (8 - lng)))
      (Z.of_nat jn) rest = Some (p, ok) /\
    (ok = true ->
       0 <= p /\ p + lng <= slots bm /\ p < slots bm /\
       (within_byte p lng -> free_run bm p lng) /\
       (forall q, 0 <= q < p -> within_byte q lng -> ~ free_run bm q lng)) /\
    (ok = false ->
       p = 0 /\
       forall q, 0 <= q < slots bm -> within_byte q lng -> ~ free_run bm q lng).
Proof.
  intros Hl Hok. pose proof Hok as Hok2. unfold slice_ok, slots, max_int64 in Hok2.
  induction rest as [|c rest IH]; intros jn Hdrop Inv.
  - exists 0, false. split; [reflexivity|]. split; [discriminate|].
    intros _. split; [reflexivity|]. intros q Hq. apply Inv.
    apply drop_nil_length in Hdrop. unfold slots, len in Hq. lia.
  - destruct (drop_cons_inv _ _ _ _ Hdrop) as (Hc & Hdrop2 & Hjn).
    destruct (scan_spec c lng 8 (shl8 xff (wrapU64 (8 - lng))) 0)
      as (H1 & H2 & H3); try lia.
    { intros t Ht. apply mask_short; lia. }
    rewrite findFreeSpot8_loop_cons.
    set (i := Bitmap.scan c (shl8 xff (wrapU64 (8 - lng))) 8) in *.
    assert (Hbelow : forall q, 8 * Z.of_nat jn <= q < 8 * Z.of_nat jn + (8 - Z.of_nat i) ->
                               within_byte q lng -> ~ free_run bm q lng).
    { intros q Hq Hw Hfree. unfold within_byte in Hw.
      replace q with (8 * Z.of_nat jn + (q - 8 * Z.of_nat jn)) in Hw, Hfree by lia.
      rewrite mod8_add in Hw by lia.
      apply (H3 (q - 8 * Z.of_nat jn)); [lia|].
      apply (window_free_run bm jn c); try assumption; lia. }
    assert (Hnext : ~ (lng <= Z.of_nat i) ->
              forall q, 0 <= q < 8 * Z.of_nat (S jn) -> within_byte q lng ->
                        ~ free_run bm q lng).
    { intros Hlt q Hq Hw.
      destruct (Z.lt_ge_cases q (8 * Z.of_nat jn)); [apply Inv; [lia | exact Hw]|].
      apply Hbelow; [|exact Hw]. unfold within_byte in Hw.
      replace q with (8 * Z.of_nat jn + (q - 8 * Z.of_nat jn)) in Hw by lia.
      rewrite mod8_add in Hw by lia. lia. }
    assert (Hlen : Z.of_nat jn < len bm) by (unfold len; lia).
    assert (Hfound : (1 <= i)%nat ->
              0 <= 8 * Z.of_nat jn + (8 - Z.of_nat i) /\
              (within_byte (8 * Z.of_nat jn + (8 - Z.of_nat i)) lng ->
                 free_run bm (8 * Z.of_nat jn + (8 - Z.of_nat i)) lng) /\
              (forall q, 0 <= q < 8 * Z.of_nat jn + (8 - Z.of_nat i) ->
                 within_byte q lng -> ~ free_run bm q lng)).
    { intros Hi. split; [lia|]. split.
      - intros Hw. unfold within_byte in Hw. rewrite mod8_add in Hw by lia.
        apply (window_free_run bm jn c); try assumption; try lia.
        apply H2. lia.
      - intros q Hq Hw.
        destruct (Z.lt_ge_cases q (8 * Z.of_nat jn)); [apply Inv; [lia | exact Hw]|].
        apply Hbelow; [lia | exact Hw]. }
    destruct (Z.leb_spec lng (Z.of_nat i)) as [Hfit|Hnofit].
    + assert (Hi : (1 <= i)%nat).
      { destruct (Nat.eq_dec i 0%nat) as [Hz|]; [|lia]. exfalso.
        apply (H3 0); [lia|]. intros t Ht Htw. lia. }
      exists (Bitmap.spot (Z.of_nat jn) i), true. split; [reflexivity|].
      split; [|discriminate]. intros _.
      rewrite spot_eq by (unfold max_int64; lia).
      destruct (Hfound Hi) as (F1 & F2 & F3). unfold slots.
      repeat split; try lia; assumption.
    + replace (Z.of_nat jn + 1) with (Z.of_nat (S jn)) by lia.
      destruct ((0 <? Z.of_nat i) && (Z.of_nat jn <? len bm - 1)) eqn:Eb.
      * apply andb_true_iff in Eb. destruct Eb as [Ei Ej].
        apply Z.ltb_lt in Ei. apply Z.ltb_lt in Ej.
        destruct (at_index_Some bm (Z.of_nat (S jn)) ltac:(lia)) as [c2 Hc2].
        rewrite Hc2. simpl.
        destruct (byte_eqb (band c2 _) x00).
        -- exists (Bitmap.spot (Z.of_nat jn) i), true. split; [reflexivity|].
           split; [|discriminate]. intros _.
           rewrite spot_eq by (unfold max_int64; lia).
           destruct (Hfound ltac:(lia)) as (F1 & F2 & F3). unfold slots.
           repeat split; try lia; assumption.
        -- apply IH; [exact Hdrop2 | apply Hnext; lia].
      * apply IH; [exact Hdrop2 | apply Hnext; lia].
Qed.

Lemma findFreeSpot8_spec bm lng :
  slice_ok bm -> 0 <= lng <= 8 ->
  exists p ok,
    Bitmap.FindFreeSpot bm lng = Some (p, ok) /\
    (ok = true ->
       0 <= p /\ p + lng <= slots bm /\ p < slots bm /\
       (within_byte p lng -> free_run bm p lng) /\
       (forall q, 0 <= q < p -> within_byte q lng -> ~ free_run bm q lng)) /\
    (ok = false ->
       p = 0 /\
       forall q, 0 <= q < slots bm -> within_byte q lng -> ~ free_run bm q lng).
Proof.
  intros Hok Hl. unfold Bitmap.FindFreeSpot, Bitmap.findFreeSpot8.
  destruct (Z.ltb_spec lng 0); [lia|]. destruct (Z.leb_spec lng 8); [|lia].
  apply (findFreeSpot8_loop_spec bm lng Hl Hok bm 0%nat); [reflexivity|].
  intros q Hq. lia.
Qed.

(** X3. Short runs ([0 <= lng <= 8]): [FindFreeSpot] does not panic; a
    position it returns lies inside the buffer; and it is right about the
    runs that lie within one byte: a returned run that lies within one byte
    is free, no free run lying within one byte starts before the returned
    position, and when nothing is found no byte holds a free run. *)
Theorem FindFreeSpot_short_runs bm lng :
  slice_ok bm -> 0 <= lng <= 8 ->
  exists p ok,
    Bitmap.FindFreeSpot bm lng = Some (p, ok) /\
    (ok = true ->
       0 <= p /\ p + lng <= slots bm /\ p < slots bm /\
       (within_byte p lng -> free_run bm p lng) /\
       (forall q, 0 <= q < p -> within_byte q lng -> ~ free_run bm q lng)) /\
    (ok = false ->
       p = 0 /\
       forall q, 0 <= q < slots bm -> within_byte q lng -> ~ free_run bm q lng).
Proof. exact (findFreeSpot8_spec bm lng). Qed.

Lemma FindFreeSpot_short_runs_witness :
  (slice_ok [xfe; x3f] /\ 0 <= 2 <= 8) /\
  exists p ok,
    Bitmap.FindFreeSpot [xfe; x3f] 2 = Some (p, ok) /\
    (ok = true ->
       0 <= p /\ p + 2 <= slots [xfe; x3f] /\ p < slots [xfe; x3f] /\
       (within_byte p 2 -> free_run [xfe; x3f] p 2) /\
       (forall q, 0 <= q < p -> within_byte q 2 -> ~ free_run [xfe; x3f] q 2)) /\
    (ok = false ->
       p = 0 /\
       forall q, 0 <= q < slots [xfe; x3f] -> within_byte q 2 ->
                 ~ free_run [xfe; x3f] q 2).
Proof.
  assert (H : slice_ok [xfe; x3f] /\ 0 <= 2 <= 8).
  { unfold slice_ok, slots, len, max_int64. simpl. lia. }
  split; [exact H|]. destruct H as (H1 & H2).
  exact (FindFreeSpot_short_runs [xfe; x3f] 2 H1 H2).
Defined.

(** X4. The search for a single free slot is exact: [FindFreeSpot bm 1]
    returns the lowest free slot, and reports failure only when every slot
    of the buffer is occupied. *)
Theorem FindFreeSpot_single_slot bm :
  slice_ok bm ->
  exists p ok,
    Bitmap.FindFreeSpot bm 1 = Some (p, ok) /\
    (ok = true ->
       0 <= p < slots bm /\ slot bm p = false /\
       forall q, 0 <= q < p -> slot bm q = true) /\
    (ok = false -> forall q, 0 <= q < slots bm -> slot bm q = true).
Proof.
  intros Hok.
  destruct (findFreeSpot8_spec bm 1 Hok ltac:(lia)) as (p & ok & E & Ht & Hf).
  assert (Hw : forall q, within_byte q 1).
  { intros q. unfold within_byte.
    pose proof (Z.mod_pos_bound q 8 ltac:(lia)). lia. }
  assert (Hocc : forall q, ~ free_run bm q 1 -> slot bm q = true).
  { intros q Hn. destruct (slot bm q) eqn:Es; [reflexivity|]. exfalso.
    apply Hn. intros s Hs. replace s with q by lia. exact Es. }
  exists p, ok. split; [exact E|]. split.
  - intros Hk. destruct (Ht Hk) as (P1 & P2 & P3 & P4 & P5).
    split; [lia|]. split; [apply (P4 (Hw p)); lia|].
    intros q Hq. apply Hocc, P5; [exact Hq | apply Hw].
  - intros Hk. destruct (Hf Hk) as (_ & P). intros q Hq.
    apply Hocc, P; [exact Hq | apply Hw].
Qed.

Lemma FindFreeSpot_single_slot_witness :
  slice_ok [xff; xdf] /\
  exists p ok,
    Bitmap.FindFreeSpot [xff; xdf] 1 = Some (p, ok) /\
    (ok = true ->
       0 <= p < slots [xff; xdf] /\ slot [xff; xdf] p = false /\
       forall q, 0 <= q < p -> slot [xff; xdf] q = true) /\
    (ok = false -> forall q, 0 <= q < slots [xff; xdf] -> slot [xff; xdf] q = true).
Proof.
  assert (H : slice_ok [xff; xdf]).
  { unfold slice_ok, slots, len, max_int64. simpl. lia. }
  split; [exact H|].
  exact (FindFreeSpot_single_slot [xff; xdf] H).
Defined.

Lemma free_run_split bm p a b :
  0 <= a -> 0 <= b ->
  (free_run bm p (a + b) <-> free_run bm p a /\ free_run bm (p + a) b).
Proof.
  intros Ha Hb. unfold free_run. split.
  - intros H. split; intros s Hs; apply H; lia.
  - intros [H1 H2] s Hs.
    destruct (Z.lt_ge_cases s (p + a)); [apply H1 | apply H2]; lia.
Qed.

Lemma free_run_shorter bm p a b :
  a <= b -> free_run bm p b -> free_run bm p a.
Proof. intros Hab H s Hs. apply H. lia. Qed.

(** A byte is zero exactly when its eight slots are free. *)
Lemma byte_zero_free_run (bm : list byte) (jn : nat) c :
  bm !! jn = Some c ->
  (byte_eqb c x00 = true <-> free_run bm (8 * Z.of_nat jn) 8).
Proof.
  intros Hc.
  rewrite <- (Z.add_0_r (8 * Z.of_nat jn)).
  rewrite <- (window_free_run bm jn c 0 8 Hc) by lia.
  rewrite byte_eqb_eq. split.
  - intros -> t Ht _. apply sbit_x00.
  - intros H. apply byte_ext. intros t Ht. rewrite sbit_x00. apply H; lia.
Qed.

Lemma at_index_lookup (bm : list byte) (jn : nat) :
  (jn < length bm)%nat ->
  exists c, at_index bm (Z.of_nat jn) = Some c /\ bm !! jn = Some c.
Proof.
  intros Hj. destruct (at_index_Some bm (Z.of_nat jn)) as [c Hc].
  { unfold len. lia. }
  exists c. split; [exact Hc|].
  destruct (at_index_inv _ _ _ Hc) as [_ Hl]. rewrite Nat2Z.id in Hl. exact Hl.
Qed.

(** The loop of [matchAligned] over [n] whole bytes from byte [bn]. *)
Lemma matchAligned_loop_spec bm :
  slice_ok bm ->
  forall (n bn : nat), (bn + n <= length bm)%nat ->
  (Bitmap.matchAligned_loop bm (Z.of_nat bn) n = Some (Some (Z.of_nat (bn + n))) /\
   free_run bm (8 * Z.of_nat bn) (8 * Z.of_nat n)) \/
  (Bitmap.matchAligned_loop bm (Z.of_nat bn) n = Some None /\
   ~ free_run bm (8 * Z.of_nat bn) (8 * Z.of_nat n)).
Proof.
  intros Hok. unfold slice_ok, slots, len, max_int64 in Hok.
  induction n as [|n IH]; intros bn Hbn.
  - left. simpl. rewrite Nat.add_0_r. split; [reflexivity|].
    intros s Hs. lia.
  - destruct (at_index_lookup bm bn ltac:(lia)) as (c & Hc & Hl).
    simpl. rewrite Hc. simpl.
    pose proof (byte_zero_free_run bm bn c Hl) as Hz.
    replace (8 * Z.of_nat (S n)) with (8 + 8 * Z.of_nat n) by lia.
    destruct (byte_eqb c x00) eqn:E; simpl.
    + rewrite add64_id by (unfold min_int64, max_int64; lia).
      replace (Z.of_nat bn + 1) with (Z.of_nat (S bn)) by lia.
      destruct (IH (S bn) ltac:(lia)) as [[E1 F1]|[E1 F1]].
      * left. rewrite E1. split; [f_equal; f_equal; lia|].
        apply free_run_split; [lia | lia|]. split; [apply Hz; reflexivity|].
        replace (8 * Z.of_nat bn + 8) with (8 * Z.of_nat (S bn)) by lia. exact F1.
      * right. split; [exact E1|]. intros Hf.
        apply free_run_split in Hf; [|lia|lia]. apply F1.
        replace (8 * Z.of_nat (S bn)) with (8 * Z.of_nat bn + 8) by lia. apply Hf.
    + right. split; [reflexivity|]. intros Hf.
      apply free_run_split in Hf; [|lia|lia].
      destruct Hf as [Hf _]. apply Hz in Hf. congruence.
Qed.

(** [matchAligned bm bipos r]: the [r] slots from the start of byte [bipos]
    lie inside the buffer and are free. *)
Lemma matchAligned_spec bm (bn : nat) r :
  slice_ok bm -> (bn <= length bm)%nat -> 1 <= r <= max_int64 ->
  exists ok,
    Bitmap.matchAligned bm (Z.of_nat bn) r = Some ok /\
    (ok = true <->
     8 * Z.of_nat bn + r <= slots bm /\ free_run bm (8 * Z.of_nat bn) r).
Proof.
  intros Hok Hbn Hr. pose proof Hok as Hok2.
  unfold slice_ok, slots, len, max_int64 in Hok2. unfold max_int64 in Hr.
  pose proof (Z.div_mod r 8 ltac:(lia)) as Hdm.
  pose proof (Z.mod_pos_bound r 8 ltac:(lia)) as Hmb.
  assert (Hn0 : 0 <= r / 8) by (apply Z.div_pos; lia).
  unfold Bitmap.matchAligned. rewrite shr64_3, land_7.
  rewrite add64_id by (unfold min_int64, max_int64; lia).
  unfold slots, len.
  destruct (Z.ltb_spec (Z.of_nat (length bm)) (Z.of_nat bn + r / 8)) as [Hlong|Hfits].
  { exists false. split; [reflexivity|]. split; [discriminate|]. intros [H _]. lia. }
  destruct (matchAligned_loop_spec bm Hok (Z.to_nat (r / 8)) bn ltac:(lia))
    as [[E F]|[E F]]; rewrite E; simpl; rewrite Z2Nat.id in F by lia.
  2:{ exists false. split; [reflexivity|]. split; [discriminate|].
      intros [_ H]. exfalso. apply F. apply (free_run_shorter bm _ _ r); [lia | exact H]. }
  replace (Z.of_nat (bn + Z.to_nat (r / 8))) with (Z.of_nat bn + r / 8) by lia.
  destruct (Z.eqb_spec (r mod 8) 0) as [Hm|Hm].
  { exists true. split; [reflexivity|]. split; [|reflexivity]. intros _.
    split; [lia|]. replace r with (8 * (r / 8)) by lia. exact F. }
  destruct (Z.leb_spec (Z.of_nat (length bm)) (Z.of_nat bn + r / 8)) as [Hend|Hin].
  { exists false. split; [reflexivity|]. split; [discriminate|]. intros [H _]. lia. }
  destruct (at_index_lookup bm (bn + Z.to_nat (r / 8))%nat ltac:(lia)) as (c & Hc & Hl).
  replace (Z.of_nat (bn + Z.to_nat (r / 8))) with (Z.of_nat bn + r / 8) in Hc by lia.
  rewrite Hc. simpl.
  assert (Htail : byte_eqb (band c (shl8 xff (wrapU64 (sub64 8 (r mod 8))))) x00 = true
                  <-> free_run bm (8 * Z.of_nat bn + 8 * (r / 8)) (r mod 8)).
  { rewrite band_zero_iff.
    replace (8 * Z.of_nat bn + 8 * (r / 8))
      with (8 * Z.of_nat (bn + Z.to_nat (r / 8)) + 0) by lia.
    rewrite <- (window_free_run bm _ c 0 (r mod 8) Hl) by lia.
    split.
    - intros H t Ht Htw. apply H; [lia|]. rewrite mask_head by lia.
      apply Z.ltb_lt. lia.
    - intros H t Ht Hb. rewrite mask_head in Hb by lia.
      apply Z.ltb_lt in Hb. apply H; lia. }
  destruct (byte_eqb (band c _) x00) eqn:Eb.
  - exists true. split; [reflexivity|]. split; [|reflexivity]. intros _.
    split; [lia|].
    assert (G : free_run bm (8 * Z.of_nat bn) (8 * (r / 8) + r mod 8)).
    { apply free_run_split; [lia | lia|]. split; [exact F|].
      apply Htail. reflexivity. }
    replace (8 * (r / 8) + r mod 8) with r in G by lia. exact G.
  - exists false. split; [reflexivity|]. split; [discriminate|]. intros [_ H].
    assert (G : free_run bm (8 * Z.of_nat bn) (8 * (r / 8) + r mod 8)).
    { replace (8 * (r / 8) + r mod 8) with r by lia. exact H. }
    apply free_run_split in G; [|lia|lia]. destruct G as [_ G].
    apply Htail in G. congruence.
Qed.

Lemma FindFreeSpot_loop_cons bm lng j c rest :
  Bitmap.FindFreeSpot_loop bm lng j (c :: rest) =
  if (Bitmap.scan c xff 8 =? 0)%nat
  then Bitmap.FindFreeSpot_loop bm lng (j + 1) rest
  else
    ok ← Bitmap.matchAligned bm (j + 1) (sub64 lng (Z.of_nat (Bitmap.scan c xff 8)));
    if ok : bool then Some (Bitmap.spot j (Bitmap.scan c xff 8), true)
    else Bitmap.FindFreeSpot_loop bm lng (j + 1) rest.
Proof. reflexivity. Qed.

(** The long-run search from byte [jn] on, given that no free run inside
    the buffer starts before byte [jn]. *)
Lemma FindFreeSpot_loop_spec bm lng :
  8 < lng <= max_int64 -> slice_ok bm ->
  forall rest (jn : nat),
  drop jn bm = rest ->
  (forall q, 0 <= q < 8 * Z.of_nat jn -> q + lng <= slots bm -> ~ free_run bm q lng) ->
  exists p ok,
    Bitmap.FindFreeSpot_loop bm lng (Z.of_nat jn) rest = Some (p, ok) /\
    (ok = true ->
       0 <= p /\ p + lng <= slots bm /\ free_run bm p lng /\
       (forall q, 0 <= q < p -> ~ free_run bm q lng)) /\
    (ok = false ->
       p = 0 /\
       forall q, 0 <= q -> q + lng <= slots bm -> ~ free_run bm q lng).
Proof.
  intros Hl Hok. pose proof Hok as Hok2.
  unfold slice_ok, slots, max_int64 in Hok2. unfold max_int64 in Hl.
  induction rest as [|c rest IH]; intros jn Hdrop Inv.
  - exists 0, false. split; [reflexivity|]. split; [discriminate|].
    intros _. split; [reflexivity|]. intros q Hq Hq2. apply Inv; [|exact Hq2].
    apply drop_nil_length in Hdrop. unfold slots, len in Hq2. lia.
  - destruct (drop_cons_inv _ _ _ _ Hdrop) as (Hc & Hdrop2 & Hjn).
    destruct (scan_spec c 8 8 xff 0) as (H1 & H2 & H3); try lia.
    { intros t Ht. apply mask_long; lia. }
    rewrite FindFreeSpot_loop_cons.
    set (i := Bitmap.scan c xff 8) in *.
    assert (Hlen : Z.of_nat jn < len bm) by (unfold len; lia).
    assert (Hbelow : forall q, 8 * Z.of_nat jn <= q < 8 * Z.of_nat jn + (8 - Z.of_nat i) ->
                               ~ free_run bm q lng).
    { intros q Hq Hfree.
      apply (H3 (q - 8 * Z.of_nat jn)); [lia|].
      intros t Ht _.
      rewrite <- (slot_lookup bm jn c t) by (try exact Hc; lia).
      apply Hfree. lia. }
    replace (Z.of_nat jn + 1) with (Z.of_nat (S jn)) by lia.
    destruct (Nat.eqb_spec i 0) as [Hi0|Hi0].
    + apply IH; [exact Hdrop2|]. intros q Hq Hq2.
      destruct (Z.lt_ge_cases q (8 * Z.of_nat jn)); [apply Inv; lia|].
      apply Hbelow. lia.
    + rewrite sub64_id by (unfold min_int64, max_int64; lia).
      destruct (matchAligned_spec bm (S jn) (lng - Z.of_nat i) Hok ltac:(lia)
                  ltac:(unfold max_int64; lia)) as (ok & E & Hiff).
      rewrite E. simpl.
      assert (Hrun : free_run bm (8 * Z.of_nat jn + (8 - Z.of_nat i)) (Z.of_nat i)).
      { apply (window_free_run bm jn c); try assumption; try lia.
        intros t Ht Htw. apply H2; lia. }
      destruct ok.
      * destruct (proj1 Hiff eq_refl) as [Hin Hfree].
        exists (Bitmap.spot (Z.of_nat jn) i), true. split; [reflexivity|].
        split; [|discriminate]. intros _.
        rewrite spot_eq by (unfold max_int64; lia). unfold slots in *.
        split; [lia|]. split; [lia|]. split.
        -- assert (G : free_run bm (8 * Z.of_nat jn + (8 - Z.of_nat i))
                                   (Z.of_nat i + (lng - Z.of_nat i))).
           { apply free_run_split; [lia | lia|]. split; [exact Hrun|].
             replace (8 * Z.of_nat jn + (8 - Z.of_nat i) + Z.of_nat i)
               with (8 * Z.of_nat (S jn)) by lia.
             exact Hfree. }
           replace (Z.of_nat i + (lng - Z.of_nat i)) with lng in G by lia.
           exact G.
        -- intros q Hq.
           destruct (Z.lt_ge_cases q (8 * Z.of_nat jn)); [apply Inv; lia|].
           apply Hbelow. lia.
      * apply IH; [exact Hdrop2|]. intros q Hq Hq2.
        destruct (Z.lt_ge_cases q (8 * Z.of_nat jn)); [apply Inv; lia|].
        destruct (Z.lt_ge_cases q (8 * Z.of_nat jn + (8 - Z.of_nat i)));
          [apply Hbelow; lia|].
        intros Hfree.
        assert (Hrhs : 8 * Z.of_nat (S jn) + (lng - Z.of_nat i) <= slots bm /\
                       free_run bm (8 * Z.of_nat (S jn)) (lng - Z.of_nat i)).
        { split; [lia|]. intros s Hs. apply Hfree. lia. }
        apply Hiff in Hrhs. discriminate.
Qed.

Lemma FindFreeSpot_long_spec bm lng :
  slice_ok bm -> 8 < lng <= max_int64 ->
  exists p ok,
    Bitmap.FindFreeSpot bm lng = Some (p, ok) /\
    (ok = true ->
       0 <= p /\ p + lng <= slots bm /\ free_run bm p lng /\
       (forall q, 0 <= q < p -> ~ free_run bm q lng)) /\
    (ok = false ->
       p = 0 /\
       forall q, 0 <= q -> q + lng <= slots bm -> ~ free_run bm q lng).
Proof.
  intros Hok Hl. unfold Bitmap.FindFreeSpot.
  destruct (Z.ltb_spec lng 0); [lia|]. destruct (Z.leb_spec lng 8); [lia|].
  apply (FindFreeSpot_loop_spec bm lng Hl Hok bm 0%nat); [reflexivity|].
  intros q Hq. lia.
Qed.

(** X5. Long runs ([lng > 8]): [FindFreeSpot] does not panic and is exact.
    A position it returns starts a free run of [lng] slots inside the
    buffer, and no lower position does; when it reports failure the buffer
    holds no free run of [lng] slots. *)
Theorem FindFreeSpot_long_runs bm lng :
  slice_ok bm -> 8 < lng <= max_int64 ->
  exists p ok,
    Bitmap.FindFreeSpot bm lng = Some (p, ok) /\
    (ok = true ->
       0 <= p /\ p + lng <= slots bm /\ free_run bm p lng /\
       (forall q, 0 <= q < p -> ~ free_run bm q lng)) /\
    (ok = false ->
       p = 0 /\
       forall q, 0 <= q -> q + lng <= slots bm -> ~ free_run bm q lng).
Proof. exact (FindFreeSpot_long_spec bm lng). Qed.

Lemma FindFreeSpot_long_runs_witness :
  (slice_ok [xf0; x00; x07] /\ 8 < 12 <= max_int64) /\
  exists p ok,
    Bitmap.FindFreeSpot [xf0; x00; x07] 12 = Some (p, ok) /\
    (ok = true ->
       0 <= p /\ p + 12 <= slots [xf0; x00; x07] /\ free_run [xf0; x00; x07] p 12 /\
       (forall q, 0 <= q < p -> ~ free_run [xf0; x00; x07] q 12)) /\
    (ok = false ->
       p = 0 /\
       forall q, 0 <= q -> q + 12 <= slots [xf0; x00; x07] ->
                 ~ free_run [xf0; x00; x07] q 12).
Proof.
  assert (H : slice_ok [xf0; x00; x07] /\ 8 < 12 <= max_int64).
  { unfold slice_ok, slots, len, max_int64. simpl. lia. }
  split; [exact H|]. destruct H as (H1 & H2).
  exact (FindFreeSpot_long_runs [xf0; x00; x07] 12 H1 H2).
Defined.

(** Where a found run lies, for every length. *)
Lemma FindFreeSpot_bounds bm lng :
  slice_ok bm -> 0 <= lng <= max_int64 ->
  exists p ok,
    Bitmap.FindFreeSpot bm lng = Some (p, ok) /\
    (ok = true -> 0 <= p /\ p + lng <= slots bm /\ p < slots bm) /\
    (ok = false -> p = 0).
Proof.
  intros Hok Hl. destruct (Z.le_gt_cases lng 8) as [Hs|Hg].
  - destruct (findFreeSpot8_spec bm lng Hok ltac:(lia)) as (p & ok & E & Ht & Hf).
    exists p, ok. split; [exact E|]. split.
    + intros Hk. destruct (Ht Hk) as (P1 & P2 & P3 & _). auto.
    + intros Hk. destruct (Hf Hk) as (P1 & _). exact P1.
  - destruct (FindFreeSpot_long_spec bm lng Hok ltac:(lia)) as (p & ok & E & Ht & Hf).
    exists p, ok. split; [exact E|]. split.
    + intros Hk. destruct (Ht Hk) as (P1 & P2 & _). repeat split; lia.
    + intros Hk. destruct (Hf Hk) as (P1 & _). exact P1.
Qed.

Lemma FindFreeSpot_first_free bm lng :
  slice_ok bm -> 0 <= lng <= max_int64 -> lng <= slots bm -> 0 < slots bm ->
  free_run bm 0 lng ->
  Bitmap.FindFreeSpot bm lng = Some (0, true).
Proof.
  intros Hok Hl Hfit Hne Hfree. destruct (Z.le_gt_cases lng 8) as [Hs|Hg].
  - destruct (findFreeSpot8_spec bm lng Hok ltac:(lia)) as (p & ok & E & Ht & Hf).
    assert (Hw : within_byte 0 lng)
      by (unfold within_byte; rewrite Z.mod_0_l by lia; lia).
    rewrite E. destruct ok.
    + destruct (Ht eq_refl) as (P1 & _ & _ & _ & P5).
      destruct (Z.eq_dec p 0) as [->|Hp]; [reflexivity|].
      exfalso. apply (P5 0); [lia | exact Hw | exact Hfree].
    + destruct (Hf eq_refl) as (_ & P). exfalso.
      apply (P 0); [lia | exact Hw | exact Hfree].
  - destruct (FindFreeSpot_long_spec bm lng Hok ltac:(lia)) as (p & ok & E & Ht & Hf).
    rewrite E. destruct ok.
    + destruct (Ht eq_refl) as (P1 & _ & _ & P4).
      destruct (Z.eq_dec p 0) as [->|Hp]; [reflexivity|].
      exfalso. apply (P4 0); [lia | exact Hfree].
    + destruct (Hf eq_refl) as (_ & P). exfalso.
      apply (P 0); [lia | lia | exact Hfree].
Qed.

(** X6. When the first [lng] slots of a non-empty buffer are free (as in a
    bitmap that was just created), [FindFreeSpot] returns slot 0, for every
    length [0 <= lng <= 8*|bm|]. *)
Theorem FindFreeSpot_free_prefix bm lng :
  slice_ok bm -> 0 <= lng -> lng <= slots bm -> 0 < slots bm ->
  free_run bm 0 lng ->
  Bitmap.FindFreeSpot bm lng = Some (0, true).
Proof.
  intros Hok Hl Hfit Hne Hfree.
  apply FindFreeSpot_first_free; try assumption.
  unfold slice_ok in Hok. lia.
Qed.

Lemma FindFreeSpot_free_prefix_witness :
  (slice_ok [x00; x0f] /\ 0 <= 12 /\ 12 <= slots [x00; x0f] /\
   0 < slots [x00; x0f] /\ free_run [x00; x0f] 0 12) /\
  Bitmap.FindFreeSpot [x00; x0f] 12 = Some (0, true).
Proof.
  assert (H : slice_ok [x00; x0f] /\ 0 <= 12 /\ 12 <= slots [x00; x0f] /\
              0 < slots [x00; x0f] /\ free_run [x00; x0f] 0 12).
  { unfold slice_ok, slots, len, max_int64. simpl.
    split; [lia|]. split; [lia|]. split; [lia|]. split; [lia|].
    intros s Hs.
    assert (Hc : s = 0 \/ s = 1 \/ s = 2 \/ s = 3 \/ s = 4 \/ s = 5 \/ s = 6 \/
                 s = 7 \/ s = 8 \/ s = 9 \/ s = 10 \/ s = 11) by lia.
    destruct Hc as [->|[->|[->|[->|[->|[->|[->|[->|[->|[->|[->| ->]]]]]]]]]]];
      reflexivity. }
  split; [exact H|]. destruct H as (H1 & H2 & H3 & H4 & H5).
  exact (FindFreeSpot_free_prefix [x00; x0f] 12 H1 H2 H3 H4 H5).
Defined.

(** [AllocateBitmap] on a Go slice with an [int64] length that is not
    negative. *)
Lemma AllocateBitmap_spec bm lng :
  slice_ok bm -> 0 <= lng <= max_int64 ->
  exists bm2 p ok,
    Bitmap.AllocateBitmap bm lng = Some (bm2, (p, ok)) /\
    (ok = false -> bm2 = bm /\ p = 0) /\
    (ok = true ->
       0 <= p /\ p + lng <= slots bm /\ p < slots bm /\
       Bitmap.FindFreeSpot bm lng = Some (p, true) /\
       written true bm p lng bm2).
Proof.
  intros Hok Hl.
  destruct (FindFreeSpot_bounds bm lng Hok Hl) as (p & ok & E & Ht & Hf).
  unfold Bitmap.AllocateBitmap. rewrite E. simpl. destruct ok.
  - destruct (Ht eq_refl) as (P1 & P2 & P3).
    destruct (write_gen_written true bm p lng) as (bm2 & E2 & W2);
      try assumption; try lia.
    rewrite WriteInUse_gen, E2. simpl.
    exists bm2, p, true. split; [reflexivity|]. split; [discriminate|].
    intros _. auto.
  - exists bm, p, false. split; [reflexivity|]. split; [|discriminate].
    intros _. split; [reflexivity | apply Hf; reflexivity].
Qed.

(** X7. [AllocateBitmap] with [lng >= 0] never panics.  When it reports
    failure the buffer is unchanged; when it succeeds the returned range
    [pos, pos+lng) lies inside the buffer and the buffer differs from the old
    one exactly by the slots of that range being 1. *)
Theorem AllocateBitmap_marks_range bm lng :
  slice_ok bm -> 0 <= lng <= max_int64 ->
  exists bm2 p ok,
    Bitmap.AllocateBitmap bm lng = Some (bm2, (p, ok)) /\
    (ok = false -> bm2 = bm /\ p = 0) /\
    (ok = true ->
       0 <= p /\ p + lng <= slots bm /\
       length bm2 = length bm /\
       forall s, slot bm2 s = if (p <=? s) && (s <? p + lng) then true
                              else slot bm s).
Proof.
  intros Hok Hl.
  destruct (AllocateBitmap_spec bm lng Hok Hl) as (bm2 & p & ok & E & Hf & Ht).
  exists bm2, p, ok. split; [exact E|]. split; [exact Hf|].
  intros Hk. destruct (Ht Hk) as (P1 & P2 & _ & _ & L & S). auto.
Qed.

Lemma AllocateBitmap_marks_range_witness :
  (slice_ok [xfe; x3f] /\ 0 <= 1 <= max_int64) /\
  exists bm2 p ok,
    Bitmap.AllocateBitmap [xfe; x3f] 1 = Some (bm2, (p, ok)) /\
    (ok = false -> bm2 = [xfe; x3f] /\ p = 0) /\
    (ok = true ->
       0 <= p /\ p + 1 <= slots [xfe; x3f] /\
       length bm2 = length [xfe; x3f] /\
       forall s, slot bm2 s = if (p <=? s) && (s <? p + 1) then true
                              else slot [xfe; x3f] s).
Proof.
  assert (H : slice_ok [xfe; x3f] /\ 0 <= 1 <= max_int64).
  { unfold slice_ok, slots, len, max_int64. simpl. lia. }
  split; [exact H|]. destruct H as (H1 & H2).
  exact (AllocateBitmap_marks_range [xfe; x3f] 1 H1 H2).
Defined.

(** [FreeBitmap] on a Go slice from a position that is not negative. *)
Lemma FreeBitmap_spec bm pos lng :
  slice_ok bm -> 0 <= pos <= max_int64 ->
  exists bm2,
    Bitmap.FreeBitmap bm pos lng = Some bm2 /\
    length bm2 = length bm /\
    forall s, slot bm2 s = if (pos <=? s) && (s <? pos + lng) then false
                           else slot bm s.
Proof.
  intros Hok Hpos.
  pose proof (FreeBitmap_clip_min bm pos lng Hpos Hok) as Hclip.
  unfold Bitmap.FreeBitmap.
  destruct (Z.ltb_spec 0 (Bitmap.FreeBitmap_clip bm pos lng)) as [Hc|Hc].
  - rewrite WriteFree_gen.
    destruct (write_gen_written false bm pos (Bitmap.FreeBitmap_clip bm pos lng))
      as (bm2 & E & L & S); try lia; try assumption.
    exists bm2. split; [exact E|]. split; [exact L|].
    intros s. rewrite S.
    destruct (Z.lt_ge_cases s (slots bm)) as [Hin|Hout].
    + destruct (Z.leb_spec pos s); simpl; [|reflexivity].
      destruct (Z.ltb_spec s (pos + Bitmap.FreeBitmap_clip bm pos lng));
        destruct (Z.ltb_spec s (pos + lng)); try reflexivity; lia.
    + rewrite (slot_outside bm s) by lia.
      destruct ((pos <=? s) && (s <? pos + Bitmap.FreeBitmap_clip bm pos lng));
        destruct ((pos <=? s) && (s <? pos + lng)); reflexivity.
  - exists bm. split; [reflexivity|]. split; [reflexivity|].
    intros s.
    destruct (Z.leb_spec pos s); simpl; [|reflexivity].
    destruct (Z.ltb_spec s (pos + lng)); [|reflexivity].
    apply slot_outside. lia.
Qed.

(** X8. [FreeBitmap] from a position [pos >= 0] never panics, whatever
    [lng]: it returns the buffer with the slots of [pos, pos+lng) that lie
    inside the buffer cleared and every other slot unchanged (nothing
    changes for [lng <= 0] or [pos >= 8*|bm|]). *)
Theorem FreeBitmap_clears_range bm pos lng :
  slice_ok bm -> 0 <= pos <= max_int64 ->
  exists bm2,
    Bitmap.FreeBitmap bm pos lng = Some bm2 /\
    length bm2 = length bm /\
    (forall s, slot bm2 s = if (pos <=? s) && (s <? pos + lng) then false
                            else slot bm s) /\
    (lng <= 0 \/ slots bm <= pos -> bm2 = bm).
Proof.
  intros Hok Hpos.
  destruct (FreeBitmap_spec bm pos lng Hok Hpos) as (bm2 & E & L & S).
  exists bm2. split; [exact E|]. split; [exact L|]. split; [exact S|].
  intros Hcase. apply buffer_ext; [exact L|]. intros s. rewrite S.
  destruct (Z.leb_spec pos s); simpl; [|reflexivity].
  destruct (Z.ltb_spec s (pos + lng)); [|reflexivity].
  symmetry. apply slot_outside. lia.
Qed.

Lemma FreeBitmap_clears_range_witness :
  (slice_ok [xff; xff] /\ 0 <= 12 <= max_int64) /\
  exists bm2,
    Bitmap.FreeBitmap [xff; xff] 12 100 = Some bm2 /\
    length bm2 = length [xff; xff] /\
    (forall s, slot bm2 s = if (12 <=? s) && (s <? 12 + 100) then false
                            else slot [xff; xff] s) /\
    (100 <= 0 \/ slots [xff; xff] <= 12 -> bm2 = [xff; xff]).
Proof.
  assert (H : slice_ok [xff; xff] /\ 0 <= 12 <= max_int64).
  { unfold slice_ok, slots, len, max_int64. simpl. lia. }
  split; [exact H|]. destruct H as (H1 & H2).
  exact (FreeBitmap_clears_range [xff; xff] 12 100 H1 H2).
Defined.

(** ** Block addresses *)

Lemma wrap64_wrap_add a b : wrap64 (wrap64 a + b) = wrap64 (a + b).
Proof.
  unfold wrap64.
  replace ((a + 2 ^ 63) mod 2 ^ 64 - 2 ^ 63 + b + 2 ^ 63)
    with ((a + 2 ^ 63) mod 2 ^ 64 + b) by lia.
  rewrite Z.add_mod_idemp_l by lia.
  f_equal. f_equal. lia.
Qed.

Lemma wrap64_add_wrap a b : wrap64 (a + wrap64 b) = wrap64 (a + b).
Proof. rewrite Z.add_comm, wrap64_wrap_add, Z.add_comm. reflexivity. Qed.

(** [MakeAddress] is the sum [P + chunk*C + M + pos] taken in [int64]. *)
Lemma MakeAddress_wrap f c p :
  MakeAddress f c p
  = wrap64 (u8 (PrefixBlocks f) + c * ChunkSizeInBlocks f
            + u8 (BitmapBlocks f) + p).
Proof.
  unfold MakeAddress, add64, mul64.
  rewrite wrap64_add_wrap.
  rewrite (wrap64_wrap_add (u8 (PrefixBlocks f) + c * ChunkSizeInBlocks f)).
  rewrite wrap64_wrap_add. reflexivity.
Qed.

Lemma layout_ok_sizes f :
  layout_ok f ->
  RunSizeInBlocks f = u8 (BitmapBlocks f) * 2 ^ u8 (BlockSizeLog f) * 8 /\
  ChunkSizeInBlocks f = RunSizeInBlocks f + u8 (BitmapBlocks f) /\
  0 < RunSizeInBlocks f /\
  1 <= u8 (BitmapBlocks f) /\
  ChunkSizeInBlocks f <= max_int64.
Proof.
  intros [HR HC].
  pose proof (u8_range (BitmapBlocks f)) as HM.
  assert (ER : RunSizeInBlocks f = u8 (BitmapBlocks f) * 2 ^ u8 (BlockSizeLog f) * 8).
  { apply RunSizeInBlocks_exact. lia. }
  unfold ChunkSizeInBlocks. rewrite ER. unfold max_int64 in *.
  rewrite add64_id by (unfold min_int64, max_int64; lia).
  assert (0 < 2 ^ u8 (BlockSizeLog f)).
  { apply Z.pow_pos_nonneg; [lia|]. pose proof (u8_range (BlockSizeLog f)). lia. }
  repeat split; try lia; nia.
Qed.

(** What [BreakAddress] computes in a layout without overflow: the quotient
    and the remainder of [blk - P] by the chunk size. *)
Lemma BreakAddress_layout f blk :
  layout_ok f -> is_int64 blk ->
  let x := sub64 blk (u8 (PrefixBlocks f)) in
  BreakAddress f blk =
  if x <? 0 then Some (0, 0, false)
  else Some (x / ChunkSizeInBlocks f,
             x mod ChunkSizeInBlocks f - u8 (BitmapBlocks f),
             u8 (BitmapBlocks f) <=? x mod ChunkSizeInBlocks f).
Proof.
  intros Hlay Hblk x.
  destruct (layout_ok_sizes f Hlay) as (ER & EC & HR & HM & HC).
  pose proof (u8_range (BitmapBlocks f)) as HM2.
  assert (Hx : min_int64 <= x <= max_int64) by apply wrap64_range.
  unfold BreakAddress. fold x.
  destruct (Z.ltb_spec x 0) as [Hneg|Hpos]; [reflexivity|].
  set (C := ChunkSizeInBlocks f) in *.
  assert (HCpos : 0 < C) by lia.
  destruct (Z.eqb_spec C 0); [lia|].
  rewrite Z.quot_div_nonneg, Z.rem_mod_nonneg by lia.
  pose proof (Z.mod_pos_bound x C HCpos) as Hm.
  assert (Hq : 0 <= x / C <= x).
  { split; [apply Z.div_pos; lia|]. apply Z.div_le_upper_bound; [lia|]. nia. }
  unfold max_int64, min_int64 in *.
  rewrite wrap64_id by (unfold min_int64, max_int64; lia).
  rewrite sub64_id by (unfold min_int64, max_int64; lia).
  f_equal. f_equal.
  destruct (Z.leb_spec 0 (x mod C - u8 (BitmapBlocks f)));
    destruct (Z.leb_spec (u8 (BitmapBlocks f)) (x mod C)); try reflexivity; lia.
Qed.

Lemma BreakAddress_ok_spec f blk c p :
  layout_ok f -> is_int64 blk ->
  BreakAddress f blk = Some (c, p, true) ->
  0 <= c /\ 0 <= p < RunSizeInBlocks f /\ MakeAddress f c p = blk.
Proof.
  intros Hlay Hblk E.
  destruct (layout_ok_sizes f Hlay) as (ER & EC & HR & HM & HC).
  rewrite (BreakAddress_layout f blk Hlay Hblk) in E. cbv zeta in E.
  set (x := sub64 blk (u8 (PrefixBlocks f))) in *.
  destruct (Z.ltb_spec x 0) as [Hneg|Hpos]; [discriminate|].
  set (C := ChunkSizeInBlocks f) in *.
  assert (HCpos : 0 < C) by lia.
  pose proof (Z.mod_pos_bound x C HCpos) as Hm.
  pose proof (Z.div_mod x C ltac:(lia)) as Hdm.
  injection E as Ec Ep Eok. apply Z.leb_le in Eok.
  split; [subst c; apply Z.div_pos; lia|]. split; [lia|].
  rewrite MakeAddress_wrap. fold C.
  replace (u8 (PrefixBlocks f) + c * C + u8 (BitmapBlocks f) + p)
    with (x + u8 (PrefixBlocks f)) by (subst c p; lia).
  unfold x, sub64. rewrite wrap64_wrap_add.
  replace (blk - u8 (PrefixBlocks f) + u8 (PrefixBlocks f)) with blk by lia.
  apply wrap64_id. exact Hblk.
Qed.

(** X9. In a layout without overflow, an address that [BreakAddress]
    accepts is put together again by [MakeAddress]: if
    [BreakAddress blk = (chunk, pos, true)] then [chunk >= 0],
    [0 <= pos < RunSizeInBlocks] and [MakeAddress chunk pos = blk]. *)
Theorem MakeAddress_BreakAddress f blk c p :
  layout_ok f -> is_int64 blk ->
  BreakAddress f blk = Some (c, p, true) ->
  0 <= c /\ 0 <= p < RunSizeInBlocks f /\ MakeAddress f c p = blk.
Proof. exact (BreakAddress_ok_spec f blk c p). Qed.

Lemma MakeAddress_BreakAddress_witness :
  let f := scenario_cfg false false false in
  (layout_ok f /\ is_int64 200 /\ BreakAddress f 200 = Some (3, 3, true)) /\
  0 <= 3 /\ 0 <= 3 < RunSizeInBlocks f /\ MakeAddress f 3 3 = 200.
Proof.
  intros f.
  assert (H : layout_ok f /\ is_int64 200 /\ BreakAddress f 200 = Some (3, 3, true)).
  { split; [|split; [|reflexivity]].
    - unfold layout_ok, max_int64. vm_compute. split; [reflexivity | discriminate].
    - unfold is_int64, min_int64, max_int64. lia. }
  split; [exact H|]. destruct H as (H1 & H2 & H3).
  exact (MakeAddress_BreakAddress f 200 3 3 H1 H2 H3).
Defined.



(** ** The allocator on any store *)

Lemma AllocateBitmap_inv bm lng bm2 p ok :
  Bitmap.AllocateBitmap bm lng = Some (bm2, (p, ok)) ->
  Bitmap.FindFreeSpot bm lng = Some (p, ok) /\
  (ok = false -> bm2 = bm) /\
  (ok = true -> Bitmap.WriteInUse bm p lng = Some bm2).
Proof.
  unfold Bitmap.AllocateBitmap.
  destruct (Bitmap.FindFreeSpot bm lng) as [[p0 ok0]|]; [|discriminate]. simpl.
  destruct ok0.
  - destruct (Bitmap.WriteInUse bm p0 lng) as [bm3|] eqn:Ew; [|discriminate]. simpl.
    intros E. injection E as <- <- <-.
    split; [reflexivity|]. split; [discriminate | intros _; exact Ew].
  - intros E. injection E as <- <- <-.
    split; [reflexivity|]. split; [reflexivity | discriminate].
Qed.

Section Controller.
Context {W : Type} {SM : StorageModel W}.

Ltac munfold :=
  cbv beta iota zeta delta
    [mbind mret M_bind M_ret bind ret get put lift panic
     allocator_at set_allocators fst snd].

(** A call on the store returns, records itself and leaves the rest of the
    allocator alone. *)
Lemma call_spec {A} (c : Call) (f : W -> W * A) (pa : PageAllocator W) :
  exists pa',
    call c f pa = Done (snd (f (world (Storage pa))), pa') /\
    allocators pa' = allocators pa /\ Config pa' = Config pa /\
    mmapper pa' = mmapper pa /\ bitmapSize pa' = bitmapSize pa /\
    world (Storage pa') = fst (f (world (Storage pa))) /\
    calls (Storage pa') = calls (Storage pa) ++ [c].
Proof.
  unfold call. destruct (f (world (Storage pa))) as [w a].
  eexists. split; [reflexivity|]. repeat split.
Qed.

Lemma set_buffer_spec (pa : PageAllocator W) i b bm :
  at_index (allocators pa) i = Some b ->
  exists pa',
    set_buffer i bm pa = Done (tt, pa') /\
    allocators pa' = <[Z.to_nat i := with_buffer b bm]> (allocators pa) /\
    Config pa' = Config pa /\ mmapper pa' = mmapper pa /\
    bitmapSize pa' = bitmapSize pa /\ Storage pa' = Storage pa.
Proof.
  intros Hb. destruct (at_index_inv _ _ _ Hb) as [Hi _].
  destruct (set_index_Some (allocators pa) i (with_buffer b bm) Hi) as [Es _].
  unfold set_buffer. munfold. rewrite Hb. munfold.
  unfold with_buffer in Es. rewrite Es.
  eexists. split; [reflexivity|]. repeat split.
Qed.

Lemma set_buffer_same (pa : PageAllocator W) i b :
  at_index (allocators pa) i = Some b ->
  set_buffer i (buffer b) pa = Done (tt, pa).
Proof.
  intros Hb. destruct (at_index_inv _ _ _ Hb) as [Hi Hl].
  destruct (set_index_Some (allocators pa) i (with_buffer b (buffer b)) Hi) as [Es _].
  unfold set_buffer. munfold. rewrite Hb. munfold.
  unfold with_buffer in Es. rewrite Es.
  assert (Eb : {| buffer := buffer b; rawoff := rawoff b; mmapped := mmapped b |} = b)
    by (destruct b; reflexivity).
  rewrite Eb, (list_insert_id _ _ _ Hl). destruct pa. reflexivity.
Qed.

(** The write-back of chunk [i]: what it returns, what it calls, and that
    it leaves the chunk list alone.  An error of [Sync] is not reported. *)
Lemma persist_spec (pa : PageAllocator W) i b err0 :
  at_index (allocators pa) i = Some b ->
  exists e pa',
    persist i err0 pa = Done (e, pa') /\
    allocators pa' = allocators pa /\ Config pa' = Config pa /\
    mmapper pa' = mmapper pa /\ bitmapSize pa' = bitmapSize pa /\
    calls (Storage pa') = calls (Storage pa) ++ persist_calls (Config pa) b /\
    e = (if mmapped b then
           if DontMsync (Config pa) then err0
           else snd (FlushMap (world (Storage pa)) (buffer b))
         else snd (snd (WriteAt (world (Storage pa)) (buffer b) (rawoff b)))).
Proof.
  intros Hb. unfold persist, persist_calls. munfold. rewrite Hb. munfold.
  destruct (mmapped b); simpl.
  - destruct (DontMsync (Config pa)); simpl.
    + eexists _, _. split; [reflexivity|]. rewrite app_nil_r. repeat split.
    + destruct (call_spec (CallFlushMap (buffer b))
                  (fun w => FlushMap w (buffer b)) pa)
        as (pa1 & E & A1 & A2 & A3 & A4 & A5 & A6).
      rewrite E. eexists _, _. split; [reflexivity|]. repeat split; assumption.
  - munfold.
    destruct (call_spec (CallWriteAt (buffer b) (rawoff b))
                (fun w => WriteAt w (buffer b) (rawoff b)) pa)
      as (pa1 & E & A1 & A2 & A3 & A4 & A5 & A6).
    rewrite E.
    destruct (DontFsync (Config pa)); simpl.
    + eexists _, _. split; [reflexivity|]. repeat split; assumption.
    + destruct (call_spec CallSync (fun w => Sync w) pa1)
        as (pa2 & E2 & B1 & B2 & B3 & B4 & B5 & B6).
      rewrite E2. eexists _, _. split; [reflexivity|].
      repeat split; try congruence.
      rewrite B6, A6, <- app_assoc. reflexivity.
Qed.

End Controller.

Lemma at_index_nat {A} (l : list A) (j : nat) x :
  l !! j = Some x -> at_index l (Z.of_nat j) = Some x.
Proof.
  intros Hl. pose proof (lookup_lt_Some _ _ _ Hl) as Hlt.
  unfold at_index, len.
  destruct (Z.ltb_spec (Z.of_nat j) 0); [lia|].
  destruct (Z.leb_spec (Z.of_nat (length l)) (Z.of_nat j)); [lia|]. simpl.
  rewrite Nat2Z.id. exact Hl.
Qed.

Section Allocation.
Context {W : Type} {SM : StorageModel W}.

Ltac munfold :=
  cbv beta iota zeta delta
    [mbind mret M_bind M_ret bind ret get put lift panic
     allocator_at set_allocators fst snd].

(** The scan of [doAllocate] over the chunks from index [i] on, for a
    length [0 <= lng] and bitmaps that are Go slices: either no chunk has a
    spot and nothing changes, or the first chunk [j] that has one is marked
    and written back. *)
Lemma doAllocate_loop_spec lng (pa : PageAllocator W) :
  0 <= lng <= max_int64 -> buffers_ok (allocators pa) ->
  forall (n i : nat), (i + n = length (allocators pa))%nat ->
  (doAllocate_loop n (Z.of_nat i) lng pa = Done ((0, false, Some EXTHAUSTED), pa) /\
   forall j b, (i <= j)%nat -> allocators pa !! j = Some b -> no_spot lng b)
  \/
  (exists (j : nat) b p bm2 e pa',
     (i <= j)%nat /\ allocators pa !! j = Some b /\
     (forall j2 b2, (i <= j2 < j)%nat -> allocators pa !! j2 = Some b2 ->
                    no_spot lng b2) /\
     Bitmap.FindFreeSpot (buffer b) lng = Some (p, true) /\
     Bitmap.WriteInUse (buffer b) p lng = Some bm2 /\
     0 <= p /\ p + lng <= slots (buffer b) /\
     doAllocate_loop n (Z.of_nat i) lng pa
       = Done ((MakeAddress (Config pa) (Z.of_nat j) p, true, e), pa') /\
     allocators pa' = <[j := with_buffer b bm2]> (allocators pa) /\
     Config pa' = Config pa /\ mmapper pa' = mmapper pa /\
     bitmapSize pa' = bitmapSize pa /\
     calls (Storage pa')
       = calls (Storage pa) ++ persist_calls (Config pa) (with_buffer b bm2) /\
     e = (if mmapped b then
            if DontMsync (Config pa) then None
            else snd (FlushMap (world (Storage pa)) bm2)
          else snd (snd (WriteAt (world (Storage pa)) bm2 (rawoff b))))).
Proof.
  intros Hl Hbufs. induction n as [|n IH]; intros i Hin.
  - left. split; [reflexivity|]. intros j b Hj Hb.
    apply lookup_lt_Some in Hb. lia.
  - destruct (lookup_lt_is_Some_2 (allocators pa) i ltac:(lia)) as [b Hb].
    pose proof (at_index_nat _ _ _ Hb) as Hat.
    assert (Hsl : slice_ok (buffer b)).
    { unfold buffers_ok in Hbufs. rewrite Forall_lookup in Hbufs.
      apply (Hbufs i b Hb). }
    destruct (AllocateBitmap_spec (buffer b) lng Hsl Hl)
      as (bm2 & p & ok & EA & Hfalse & Htrue).
    destruct (AllocateBitmap_inv _ _ _ _ _ EA) as (EF & _ & EW).
    cbn [doAllocate_loop]. munfold. rewrite Hat. munfold. rewrite EA. munfold.
    destruct ok.
    + (* chunk [i] has a spot *)
      right. destruct (Htrue eq_refl) as (P1 & P2 & _ & _ & _).
      destruct (set_buffer_spec pa (Z.of_nat i) b bm2 Hat)
        as (pa1 & E1 & A1 & A2 & A3 & A4 & A5).
      rewrite Nat2Z.id in A1.
      rewrite E1. cbn [negb]. cbv iota beta.
      assert (Hat1 : at_index (allocators pa1) (Z.of_nat i) = Some (with_buffer b bm2)).
      { apply at_index_nat. rewrite A1. apply list_lookup_insert_eq.
        eapply lookup_lt_Some. exact Hb. }
      destruct (persist_spec pa1 (Z.of_nat i) _ None Hat1)
        as (e & pa2 & E2 & B1 & B2 & B3 & B4 & B5 & B6).
      rewrite E2.
      exists i, b, p, bm2, e, pa2.
      split; [lia|]. split; [exact Hb|]. split; [intros j2 b2 Hj2; lia|].
      split; [exact EF|]. split; [apply EW; reflexivity|].
      split; [exact P1|]. split; [exact P2|].
      split; [rewrite A2; reflexivity|].
      split; [congruence|]. split; [congruence|]. split; [congruence|].
      split; [congruence|].
      split; [rewrite B5, A5, A2; reflexivity|].
      rewrite B6, A5, A2. reflexivity.
    + (* chunk [i] has none: go on *)
      destruct (Hfalse eq_refl) as (-> & ->).
      rewrite (set_buffer_same pa (Z.of_nat i) b Hat). cbn [negb]. cbv iota beta.
      replace (Z.of_nat i + 1) with (Z.of_nat (S i)) by lia.
      assert (Hno : no_spot lng b) by (exists 0; exact EF).
      destruct (IH (S i) ltac:(lia)) as [[E Hall]|Hfound].
      * left. split; [exact E|]. intros j b2 Hj Hb2.
        destruct (Nat.eq_dec j i) as [->|Hne].
        -- assert (b2 = b) by congruence. subst b2. exact Hno.
        -- apply (Hall j b2); [lia | exact Hb2].
      * right.
        destruct Hfound as (j & bj & p & bm2 & e & pa' & Hj & Hbj & Hbefore & Rest).
        exists j, bj, p, bm2, e, pa'.
        split; [lia|]. split; [exact Hbj|]. split; [|exact Rest].
        intros j2 b2 Hj2 Hb2.
        destruct (Nat.eq_dec j2 i) as [->|Hne].
        -- assert (b2 = b) by congruence. subst b2. exact Hno.
        -- apply (Hbefore j2 b2); [lia | exact Hb2].
Qed.

End Allocation.

Section AllocateBlocksFacts.
Context {W : Type} {SM : StorageModel W}.

Ltac munfold :=
  cbv beta iota zeta delta
    [mbind mret M_bind M_ret bind ret get put lift panic
     allocator_at set_allocators fst snd].

(** Without growth [AllocateBlocks] is the length test followed by one scan
    of the chunks. *)
Lemma AllocateBlocks_nogrow (pa : PageAllocator W) fuel lng :
  AllocateBlocks (S fuel) lng false pa =
  if RunSizeInBlocks (Config pa) <? lng
  then Done ((0, false, Some EXCEEDMAX), pa)
  else doAllocate_loop (length (allocators pa)) 0 lng pa.
Proof.
  unfold AllocateBlocks. munfold.
  destruct (RunSizeInBlocks (Config pa) <? lng); [reflexivity|].
  cbn [AllocateBlocks_loop]. unfold doAllocate. munfold.
  destruct (doAllocate_loop (length (allocators pa)) 0 lng pa)
    as [[[[blk ok] err] pa']| |]; try reflexivity.
  cbn [negb]. rewrite !orb_true_r. reflexivity.
Qed.


(** X12. First fit: when [AllocateBlocks] without growth succeeds, the
    block it returns is [MakeAddress j pos] for the first chunk [j] in which
    [FindFreeSpot] finds a spot, [pos] being that spot; the bitmap of chunk
    [j] becomes [WriteInUse] of it over [pos, pos+lng), no other chunk
    changes, and the only calls made are the write-back of chunk [j]. *)
Theorem AllocateBlocks_first_fit (pa : PageAllocator W) fuel lng :
  0 <= lng <= max_int64 -> buffers_ok (allocators pa) ->
  exists blk ok err pa',
    AllocateBlocks (S fuel) lng false pa = Done ((blk, ok, err), pa') /\
    (ok = true ->
       exists (j : nat) b p bm2,
         allocators pa !! j = Some b /\
         (forall j2 b2, (j2 < j)%nat -> allocators pa !! j2 = Some b2 ->
                        no_spot lng b2) /\
         Bitmap.FindFreeSpot (buffer b) lng = Some (p, true) /\
         Bitmap.WriteInUse (buffer b) p lng = Some bm2 /\
         blk = MakeAddress (Config pa) (Z.of_nat j) p /\
         allocators pa' = <[j := with_buffer b bm2]> (allocators pa) /\
         calls (Storage pa')
           = calls (Storage pa) ++ persist_calls (Config pa) (with_buffer b bm2)).
Proof.
  intros Hl Hb. rewrite AllocateBlocks_nogrow.
  destruct (RunSizeInBlocks (Config pa) <? lng).
  { exists 0, false, (Some EXCEEDMAX), pa. split; [reflexivity|]. discriminate. }
  destruct (doAllocate_loop_spec lng pa Hl Hb (length (allocators pa)) 0%nat eq_refl)
    as [[E _]|(j & b & p & bm2 & e & pa' & _ & Hj & Hbefore & EF & EW & _ & _ & E
               & EA & _ & _ & _ & EC & _)].
  - exists 0, false, (Some EXTHAUSTED), pa. split; [exact E|]. discriminate.
  - exists (MakeAddress (Config pa) (Z.of_nat j) p), true, e, pa'.
    split; [exact E|]. intros _. exists j, b, p, bm2.
    split; [exact Hj|]. split.
    { intros j2 b2 Hj2. apply Hbefore. lia. }
    auto.
Qed.

(** X13. A negative length is a panic, not an error: with a run size
    [>= 0] and at least one chunk, [AllocateBlocks] with [lng < 0] panics
    (in [FindFreeSpot]), with or without growth. *)
Theorem AllocateBlocks_negative_length (pa : PageAllocator W) fuel lng grow :
  lng < 0 -> 0 <= RunSizeInBlocks (Config pa) -> allocators pa <> [] ->
  AllocateBlocks (S fuel) lng grow pa = Panic.
Proof.
  intros Hl HR Hne. unfold AllocateBlocks. munfold.
  destruct (Z.ltb_spec (RunSizeInBlocks (Config pa)) lng); [lia|].
  cbn [AllocateBlocks_loop]. unfold doAllocate. munfold.
  destruct (allocators pa) as [|b l] eqn:El; [congruence|].
  cbn [length doAllocate_loop]. munfold. rewrite El.
  change (at_index (b :: l) 0) with (Some b). munfold.
  unfold Bitmap.AllocateBitmap, Bitmap.FindFreeSpot.
  destruct (Z.ltb_spec lng 0); [reflexivity | lia].
Qed.



End AllocateBlocksFacts.


Lemma AllocateBlocks_first_fit_witness :
  let pa := one_chunk (scenario_cfg false false false) in
  (0 <= 3 <= max_int64 /\ buffers_ok (allocators pa)) /\
  exists blk ok err pa',
    AllocateBlocks 1 3 false pa = Done ((blk, ok, err), pa') /\
    (ok = true ->
       exists (j : nat) b p bm2,
         allocators pa !! j = Some b /\
         (forall j2 b2, (j2 < j)%nat -> allocators pa !! j2 = Some b2 ->
                        no_spot 3 b2) /\
         Bitmap.FindFreeSpot (buffer b) 3 = Some (p, true) /\
         Bitmap.WriteInUse (buffer b) p 3 = Some bm2 /\
         blk = MakeAddress (Config pa) (Z.of_nat j) p /\
         allocators pa' = <[j := with_buffer b bm2]> (allocators pa) /\
         calls (Storage pa')
           = calls (Storage pa) ++ persist_calls (Config pa) (with_buffer b bm2)).
Proof.
  intros pa.
  assert (H : 0 <= 3 <= max_int64 /\ buffers_ok (allocators pa)).
  { split; [unfold max_int64; lia|].
    repeat constructor. unfold slice_ok, slots, len, max_int64. simpl. lia. }
  split; [exact H|]. destruct H as (H1 & H2).
  exact (AllocateBlocks_first_fit pa 0%nat 3 H1 H2).
Defined.

Lemma AllocateBlocks_negative_length_witness :
  let pa := one_chunk (scenario_cfg false false false) in
  (-1 < 0 /\ 0 <= RunSizeInBlocks (Config pa) /\ allocators pa <> []) /\
  AllocateBlocks 1 (-1) true pa = Panic.
Proof.
  intros pa.
  assert (H : -1 < 0 /\ 0 <= RunSizeInBlocks (Config pa) /\ allocators pa <> []).
  { split; [lia|]. split; [vm_compute; discriminate | discriminate]. }
  split; [exact H|]. destruct H as (H1 & H2 & H3).
  exact (AllocateBlocks_negative_length pa 0%nat (-1) true H1 H2 H3).
Defined.


Section FreeBlocksFacts.
Context {W : Type} {SM : StorageModel W}.

Ltac munfold :=
  cbv beta iota zeta delta
    [mbind mret M_bind M_ret bind ret get put lift panic
     allocator_at set_allocators fst snd].

(** [FreeBlocks] on an address that [BreakAddress] places in chunk [j]. *)
Lemma doFree_known (pa : PageAllocator W) blk lng (j : nat) b pos :
  BreakAddress (Config pa) blk = Some (Z.of_nat j, pos, true) ->
  allocators pa !! j = Some b -> slice_ok (buffer b) -> 0 <= pos <= max_int64 ->
  exists bm2 e pa',
    Bitmap.FreeBitmap (buffer b) pos lng = Some bm2 /\
    FreeBlocks blk lng pa = Done (e, pa') /\
    allocators pa' = <[j := with_buffer b bm2]> (allocators pa) /\
    Config pa' = Config pa /\ mmapper pa' = mmapper pa /\
    bitmapSize pa' = bitmapSize pa /\
    calls (Storage pa')
      = calls (Storage pa) ++ persist_calls (Config pa) (with_buffer b bm2) /\
    e = (if mmapped b then
           if DontMsync (Config pa) then None
           else snd (FlushMap (world (Storage pa)) bm2)
         else snd (snd (WriteAt (world (Storage pa)) bm2 (rawoff b)))).
Proof.
  intros HB Hj Hs Hp.
  destruct (FreeBitmap_spec (buffer b) pos lng Hs Hp) as (bm2 & EF & _ & _).
  pose proof (at_index_nat _ _ _ Hj) as Hat.
  pose proof (lookup_lt_Some _ _ _ Hj) as Hlt.
  destruct (set_buffer_spec pa (Z.of_nat j) b bm2 Hat)
    as (pa1 & E1 & A1 & A2 & A3 & A4 & A5).
  rewrite Nat2Z.id in A1.
  assert (Hat1 : at_index (allocators pa1) (Z.of_nat j) = Some (with_buffer b bm2)).
  { apply at_index_nat. rewrite A1. apply list_lookup_insert_eq. exact Hlt. }
  destruct (persist_spec pa1 (Z.of_nat j) _ None Hat1)
    as (e & pa2 & E2 & B1 & B2 & B3 & B4 & B5 & B6).
  exists bm2, e, pa2. split; [exact EF|]. split.
  { unfold FreeBlocks, doFree. munfold. rewrite HB. munfold. cbn [negb].
    assert (Hin : (Z.of_nat j <? len (allocators pa)) = true).
    { apply Z.ltb_lt. unfold len. lia. }
    rewrite Hin, Hat. munfold. rewrite EF. munfold. rewrite E1. exact E2. }
  split; [congruence|]. split; [congruence|]. split; [congruence|].
  split; [congruence|]. split.
  { rewrite B5, A5, A2. reflexivity. }
  rewrite B6, A5, A2. reflexivity.
Qed.



(** X16. The write-back of [FreeBlocks]: when the address lies in chunk [j],
    the cleared bitmap is handed to the store by the same rule as after an
    allocation ([WriteAt] plus [Sync] unless [DontFsync], or [FlushMap]
    unless [DontMsync]), these are the only calls, and the error returned
    is that of [WriteAt] or [FlushMap]: an error of [Sync] is dropped and
    a mapped chunk with [DontMsync] gives [nil]. *)
Theorem FreeBlocks_write_back (pa : PageAllocator W) blk lng (j : nat) b pos :
  BreakAddress (Config pa) blk = Some (Z.of_nat j, pos, true) ->
  allocators pa !! j = Some b -> slice_ok (buffer b) -> 0 <= pos <= max_int64 ->
  exists bm2 e pa',
    Bitmap.FreeBitmap (buffer b) pos lng = Some bm2 /\
    FreeBlocks blk lng pa = Done (e, pa') /\
    calls (Storage pa')
      = calls (Storage pa) ++ persist_calls (Config pa) (with_buffer b bm2) /\
    e = (if mmapped b then
           if DontMsync (Config pa) then None
           else snd (FlushMap (world (Storage pa)) bm2)
         else snd (snd (WriteAt (world (Storage pa)) bm2 (rawoff b)))).
Proof.
  intros HB Hj Hs Hp.
  destruct (doFree_known pa blk lng j b pos HB Hj Hs Hp)
    as (bm2 & e & pa' & EF & E & _ & _ & _ & _ & EC & Ee).
  exists bm2, e, pa'. auto.
Qed.

End FreeBlocksFacts.

Lemma scenario_layout_ok b1 b2 b3 : layout_ok (scenario_cfg b1 b2 b3).
Proof. unfold layout_ok, max_int64. cbn. lia. Qed.

Lemma one_chunk_buffers_ok f : buffers_ok (allocators (one_chunk f)).
Proof.
  repeat constructor. unfold slice_ok, slots, len, max_int64. simpl. lia.
Qed.


Lemma FreeBlocks_write_back_witness :
  let pa := one_chunk (scenario_cfg false false false) in
  let b := {| buffer := repeat x00 8%nat; rawoff := 8; mmapped := false |} in
  (BreakAddress (Config pa) 5 = Some (Z.of_nat 0, 3, true) /\
   allocators pa !! 0%nat = Some b /\ slice_ok (buffer b) /\
   0 <= 3 <= max_int64) /\
  exists bm2 e pa',
    Bitmap.FreeBitmap (buffer b) 3 2 = Some bm2 /\
    FreeBlocks 5 2 pa = Done (e, pa') /\
    calls (Storage pa')
      = calls (Storage pa) ++ persist_calls (Config pa) (with_buffer b bm2) /\
    e = (if mmapped b then
           if DontMsync (Config pa) then None
           else snd (FlushMap (world (Storage pa)) bm2)
         else snd (snd (WriteAt (world (Storage pa)) bm2 (rawoff b)))).
Proof.
  intros pa b.
  assert (H : BreakAddress (Config pa) 5 = Some (Z.of_nat 0, 3, true) /\
              allocators pa !! 0%nat = Some b /\ slice_ok (buffer b) /\
              0 <= 3 <= max_int64).
  { split; [vm_compute; reflexivity|]. split; [reflexivity|].
    split; unfold slice_ok, slots, len, max_int64; simpl; lia. }
  split; [exact H|]. destruct H as (H1 & H2 & H3 & H4).
  exact (FreeBlocks_write_back pa 5 2 0%nat b 3 H1 H2 H3 H4).
Defined.


(** [BreakAddress] undoes [MakeAddress] in a layout that does not overflow. *)
Lemma BreakAddress_MakeAddress_layout f c p :
  layout_ok f -> 0 <= c -> 0 <= p < RunSizeInBlocks f ->
  u8 (PrefixBlocks f) + c * ChunkSizeInBlocks f + u8 (BitmapBlocks f) + p
    <= max_int64 ->
  BreakAddress f (MakeAddress f c p) = Some (c, p, true).
Proof.
  intros HL Hc Hp Hmax.
  destruct (layout_ok_sizes f HL) as (ER & EC & HR & HM & HC).
  pose proof (u8_range (PrefixBlocks f)) as HP.
  set (C := ChunkSizeInBlocks f) in *. set (M := u8 (BitmapBlocks f)) in *.
  set (P := u8 (PrefixBlocks f)) in *. set (R := RunSizeInBlocks f) in *.
  assert (HcC : 0 <= c * C) by nia.
  assert (Eblk : MakeAddress f c p = P + c * C + M + p).
  { rewrite MakeAddress_wrap. fold P C M. apply wrap64_id.
    unfold min_int64, max_int64 in *. lia. }
  rewrite Eblk.
  assert (Hint : is_int64 (P + c * C + M + p)).
  { unfold is_int64, min_int64, max_int64 in *. lia. }
  rewrite (BreakAddress_layout f _ HL Hint). cbv zeta. fold P C M.
  rewrite (sub64_id _ P) by (unfold min_int64, max_int64 in *; lia).
  replace (P + c * C + M + p - P) with (c * C + (M + p)) by lia.
  destruct (Z.ltb_spec (c * C + (M + p)) 0); [lia|].
  assert (Ediv : (c * C + (M + p)) / C = c).
  { symmetry. apply (Z.div_unique _ C c (M + p)); lia. }
  assert (Emod : (c * C + (M + p)) mod C = M + p).
  { symmetry. apply (Z.mod_unique _ C c (M + p)); lia. }
  rewrite Ediv, Emod.
  replace (M + p - M) with p by lia.
  destruct (Z.leb_spec M (M + p)); [reflexivity | lia].
Qed.

Section GrowthFacts.
Context {W : Type} {SM : StorageModel W}.

Ltac munfold :=
  cbv beta iota zeta delta
    [mbind mret M_bind M_ret bind ret get put lift panic
     allocator_at set_allocators fst snd].



(** X18. Allocate, then free: in a layout that does not overflow whose
    bitmaps hold at most [RunSizeInBlocks] slots and whose chunks lie below
    [max int64], for a length [lng > 8] or [lng = 1], [AllocateBlocks]
    (without growth) does not panic, and when it succeeds [FreeBlocks] of the
    block it returned, with the same length, puts every bitmap back to
    what it was before the allocation. *)
Theorem AllocateBlocks_FreeBlocks_restores (pa : PageAllocator W) fuel lng :
  layout_ok (Config pa) -> buffers_ok (allocators pa) ->
  (forall (j : nat) b, allocators pa !! j = Some b ->
     slots (buffer b) <= RunSizeInBlocks (Config pa)) ->
  u8 (PrefixBlocks (Config pa)) + ChunksN pa * ChunkSizeInBlocks (Config pa)
    <= max_int64 ->
  8 < lng <= max_int64 \/ lng = 1 ->
  exists blk ok e pa1,
    AllocateBlocks (S fuel) lng false pa = Done ((blk, ok, e), pa1) /\
    (ok = true ->
       exists e2 pa2,
         FreeBlocks blk lng pa1 = Done (e2, pa2) /\
         allocators pa2 = allocators pa /\ Config pa2 = Config pa).
Proof.
  intros HL Hbufs Hrun Hfit Hlng.
  assert (Hl2 : 0 <= lng <= max_int64) by (unfold max_int64 in *; lia).
  rewrite AllocateBlocks_nogrow.
  destruct (RunSizeInBlocks (Config pa) <? lng).
  { exists 0, false, (Some EXCEEDMAX), pa. split; [reflexivity | discriminate]. }
  destruct (doAllocate_loop_spec lng pa Hl2 Hbufs (length (allocators pa)) 0%nat eq_refl)
    as [[E _]|(j & b & p & bm2 & e & pa1 & _ & Hj & _ & EF & EW & Hp0 & Hp1 & E
               & EA & EC & _)].
  { exists 0, false, (Some EXTHAUSTED), pa. split; [exact E | discriminate]. }
  exists (MakeAddress (Config pa) (Z.of_nat j) p), true, e, pa1.
  split; [exact E|]. intros _.
  assert (Hsl : slice_ok (buffer b)).
  { unfold buffers_ok in Hbufs. rewrite Forall_lookup in Hbufs. exact (Hbufs _ _ Hj). }
  assert (Hfree : free_run (buffer b) p lng).
  { destruct Hlng as [Hlong|Hone].
    2: subst lng.
    - destruct (FindFreeSpot_long_spec (buffer b) lng Hsl Hlong)
        as (p2 & ok2 & EF2 & Hok & _).
      rewrite EF in EF2. injection EF2 as <- <-.
      destruct (Hok eq_refl) as (_ & _ & Hfr & _). exact Hfr.
    - destruct (findFreeSpot8_spec (buffer b) 1 Hsl ltac:(lia))
        as (p2 & ok2 & EF2 & Hok & _).
      rewrite EF in EF2. injection EF2 as <- <-.
      destruct (Hok eq_refl) as (_ & _ & _ & Hfr & _). apply Hfr.
      unfold within_byte. pose proof (Z.mod_pos_bound p 8). lia. }
  assert (Hw : written true (buffer b) p lng bm2).
  { destruct (write_gen_written true (buffer b) p lng) as (bm' & Eg & Hw);
      try lia; try exact Hsl.
    rewrite <- WriteInUse_gen in Eg. congruence. }
  pose proof (lookup_lt_Some _ _ _ Hj) as Hlt.
  destruct (layout_ok_sizes _ HL) as (ER & ECs & HR & HM & HC).
  pose proof (Hrun _ _ Hj) as HbR.
  pose proof (u8_range (PrefixBlocks (Config pa))) as HP.
  assert (HB : BreakAddress (Config pa1) (MakeAddress (Config pa) (Z.of_nat j) p)
               = Some (Z.of_nat j, p, true)).
  { rewrite EC. apply BreakAddress_MakeAddress_layout; try lia; try exact HL.
    unfold ChunksN, len in Hfit.
    set (C := ChunkSizeInBlocks (Config pa)) in *.
    assert ((Z.of_nat j + 1) * C <= Z.of_nat (length (allocators pa)) * C) by nia.
    lia. }
  assert (Hj1 : allocators pa1 !! j = Some (with_buffer b bm2)).
  { rewrite EA. apply list_lookup_insert_eq. exact Hlt. }
  assert (Hsl2 : slice_ok bm2).
  { unfold slice_ok. rewrite (slots_written _ _ _ _ _ Hw). exact Hsl. }
  assert (Hpm : 0 <= p <= max_int64).
  { unfold slice_ok in Hsl. lia. }
  destruct (doFree_known pa1 _ lng j (with_buffer b bm2) p HB Hj1 Hsl2 Hpm)
    as (bm3 & e2 & pa2 & EFr & E2 & EA2 & EC2 & _).
  cbn [with_buffer buffer] in EFr.
  destruct (FreeBitmap_spec bm2 p lng Hsl2 Hpm) as (bm4 & EF4 & Hlen4 & Hsl4).
  assert (bm4 = bm3) by congruence. subst bm4.
  assert (Eback : bm3 = buffer b).
  { destruct Hw as [Hwl Hws]. apply buffer_ext; [congruence|].
    intros s. rewrite Hsl4, Hws.
    destruct ((p <=? s) && (s <? p + lng)) eqn:Ein; [|reflexivity].
    symmetry. apply Hfree.
    apply andb_true_iff in Ein. destruct Ein as [H1 H2].
    apply Z.leb_le in H1. apply Z.ltb_lt in H2. lia. }
  exists e2, pa2. split; [exact E2|]. split; [|congruence].
  rewrite EA2, EA, list_insert_insert_eq. subst bm3.
  apply list_insert_id. rewrite Hj. f_equal. destruct b; reflexivity.
Qed.

End GrowthFacts.


Lemma AllocateBlocks_FreeBlocks_restores_witness :
  let pa := one_chunk (scenario_cfg false false false) in
  (layout_ok (Config pa) /\ buffers_ok (allocators pa) /\
   (forall (j : nat) b, allocators pa !! j = Some b ->
      slots (buffer b) <= RunSizeInBlocks (Config pa)) /\
   u8 (PrefixBlocks (Config pa)) + ChunksN pa * ChunkSizeInBlocks (Config pa)
     <= max_int64 /\
   (8 < 9 <= max_int64 \/ 9 = 1)) /\
  exists blk ok e pa1,
    AllocateBlocks 1 9 false pa = Done ((blk, ok, e), pa1) /\
    (ok = true ->
       exists e2 pa2,
         FreeBlocks blk 9 pa1 = Done (e2, pa2) /\
         allocators pa2 = allocators pa /\ Config pa2 = Config pa).
Proof.
  intros pa.
  assert (H : layout_ok (Config pa) /\ buffers_ok (allocators pa) /\
    (forall (j : nat) b, allocators pa !! j = Some b ->
       slots (buffer b) <= RunSizeInBlocks (Config pa)) /\
    u8 (PrefixBlocks (Config pa)) + ChunksN pa * ChunkSizeInBlocks (Config pa)
      <= max_int64 /\
    (8 < 9 <= max_int64 \/ 9 = 1)).
  { split; [apply scenario_layout_ok|]. split; [apply one_chunk_buffers_ok|].
    split.
    { intros [|j] b Hb; [|destruct j; discriminate].
      injection Hb as <-. vm_compute. discriminate. }
    split; [vm_compute; discriminate|].
    left. unfold max_int64. lia. }
  split; [exact H|]. destruct H as (H1 & H2 & H3 & H4 & H5).
  exact (AllocateBlocks_FreeBlocks_restores pa 0%nat 9 H1 H2 H3 H4 H5).
Defined.

Section SyncAndClose.
Context {W : Type} {SM : StorageModel W}.

Ltac munfold :=
  cbv beta iota zeta delta
    [mbind mret M_bind M_ret bind ret get put lift panic
     allocator_at set_allocators fst snd].


(** The loop of [Close]. *)
Lemma Close_loop_spec (l : list bitmapBuffer) :
  forall pa : PageAllocator W,
  exists l' pa',
    Close_loop l pa = Done (l', pa') /\
    allocators pa' = allocators pa /\ Config pa' = Config pa /\
    mmapper pa' = mmapper pa /\ bitmapSize pa' = bitmapSize pa /\
    calls (Storage pa') = calls (Storage pa) ++ unmap_calls l /\
    Forall (fun b => mmapped b = false) l'.
Proof.
  induction l as [|b l IH]; intros pa.
  - exists [], pa. cbn. rewrite app_nil_r. repeat split; constructor.
  - cbn [Close_loop]. munfold. destruct (mmapped b) eqn:Eb.
    + destruct (call_spec (CallMemUnmap (buffer b))
                  (fun w => (MemUnmap w (buffer b), tt)) pa)
        as (pa1 & E1 & A1 & A2 & A3 & A4 & _ & A6).
      rewrite E1.
      destruct (IH pa1) as (l' & pa2 & E2 & B1 & B2 & B3 & B4 & B6 & BF).
      rewrite E2. eexists _, pa2. split; [reflexivity|].
      split; [congruence|]. split; [congruence|]. split; [congruence|].
      split; [congruence|]. split.
      { rewrite B6, A6. cbn [unmap_calls flat_map]. rewrite Eb.
        rewrite <- app_assoc. reflexivity. }
      constructor; [reflexivity | exact BF].
    + destruct (IH pa) as (l' & pa2 & E2 & B1 & B2 & B3 & B4 & B6 & BF).
      rewrite E2. eexists _, pa2. split; [reflexivity|].
      split; [congruence|]. split; [congruence|]. split; [congruence|].
      split; [congruence|]. split.
      { rewrite B6. cbn [unmap_calls flat_map]. rewrite Eb. reflexivity. }
      constructor; [exact Eb | exact BF].
Qed.

(** X20. [Close] never fails: it returns [nil] whatever [Storage.Close]
    answers (that error is dropped) and does not panic.  It calls
    [MemUnmap] once for every mapped bitmap, in chunk order, then
    [Storage.Close], and nothing else; afterwards the allocator has no
    chunk. *)
Theorem PageAllocator_Close_spec (pa : PageAllocator W) :
  exists pa',
    PageAllocator_Close pa = Done (None, pa') /\
    ChunksN pa' = 0 /\ Config pa' = Config pa /\
    calls (Storage pa')
      = calls (Storage pa) ++ unmap_calls (allocators pa) ++ [CallClose].
Proof.
  unfold PageAllocator_Close. munfold.
  destruct (Close_loop_spec (allocators pa) pa)
    as (l' & pa1 & E1 & A1 & A2 & A3 & A4 & A6 & _).
  rewrite E1.
  match goal with
  | |- context [call CallClose _ ?p] =>
      destruct (call_spec CallClose (fun w => Close w) p)
        as (pa3 & E3 & B1 & B2 & _ & _ & _ & B6)
  end.
  rewrite E3. exists pa3. split; [reflexivity|].
  split; [unfold ChunksN; rewrite B1; reflexivity|].
  split; [rewrite B2; exact A2|].
  rewrite B6. cbn [Storage]. rewrite A6, <- app_assoc. reflexivity.
Qed.

End SyncAndClose.


(** A power of two that divides [x * o] for an odd [o] divides [x]. *)
Lemma pow2_divide_odd (n : nat) x o :
  Z.gcd 2 o = 1 -> (2 ^ Z.of_nat n | x * o) -> (2 ^ Z.of_nat n | x).
Proof.
  intros Ho. revert x. induction n as [|n IH]; intros x Hd.
  - exists x. change (2 ^ Z.of_nat 0) with 1. lia.
  - rewrite Nat2Z.inj_succ, Z.pow_succ_r in * by lia.
    assert (H2 : (2 | x)).
    { apply (Z.gauss 2 o x); [|exact Ho]. rewrite Z.mul_comm.
      destruct Hd as [q Hq]. exists (q * 2 ^ Z.of_nat n). lia. }
    destruct H2 as [y ->].
    destruct (IH y) as [z Hz].
    { destruct Hd as [q Hq]. exists q. lia. }
    exists z. rewrite Hz. ring.
Qed.

(** A chunk size of zero needs a bitmap of zero blocks. *)
Lemma ChunkSizeInBlocks_zero f :
  ChunkSizeInBlocks f = 0 <-> BitmapBlocks f = x00.
Proof.
  pose proof (u8_range (BitmapBlocks f)) as HM.
  unfold ChunkSizeInBlocks, RunSizeInBlocks, add64, shl64.
  set (M := u8 (BitmapBlocks f)) in *.
  set (k := wrap8 (u8 (BlockSizeLog f) + 3)).
  assert (Hk : 0 <= k < 256) by (unfold k, wrap8; apply Z.mod_pos_bound; lia).
  assert (HM0 : BitmapBlocks f = x00 <-> M = 0).
  { split; [intros E; unfold M; rewrite E; reflexivity|].
    intros E. apply u8_inj. exact E. }
  rewrite HM0. split.
  - intros HC. destruct (Z.leb_spec 64 k).
    + rewrite wrap64_id in HC by (unfold min_int64, max_int64; lia). lia.
    + rewrite wrap64_wrap_add in HC. rewrite Z.shiftl_mul_pow2 in HC by lia.
      assert (Hdiv : (2 ^ 64 | M * (2 ^ k + 1))).
      { unfold wrap64 in HC.
        pose proof (Z.div_mod (M * 2 ^ k + M + 2 ^ 63) (2 ^ 64) ltac:(lia)) as Hdm.
        exists ((M * 2 ^ k + M + 2 ^ 63) / 2 ^ 64). lia. }
      assert (HdM : (2 ^ 64 | M)).
      { destruct (Z.eq_dec k 0) as [->|Hk0].
        - destruct Hdiv as [q Hq]. change (2 ^ 0) with 1 in Hq.
          assert (q = 0) by lia. exists 0. lia.
        - apply (pow2_divide_odd 64 M (2 ^ k + 1)); [|exact Hdiv].
          replace (2 ^ k + 1) with (1 + 2 ^ (k - 1) * 2).
          + rewrite Z.gcd_add_mult_diag_r. reflexivity.
          + replace k with (Z.succ (k - 1)) at 2 by lia.
            rewrite Z.pow_succ_r by lia. lia. }
      destruct HdM as [q Hq]. assert (q = 0) by lia. lia.
  - intros ->. rewrite Z.shiftl_0_l.
    destruct (64 <=? k); reflexivity.
Qed.

(** X21. [BreakAddress] panics (integer division by zero) exactly when
    [BitmapBlocks] is 0 and the address is not below the prefix, that is
    [blk - PrefixBlocks >= 0] in [int64]; with any other configuration, even
    one whose sizes overflow, it returns. *)
Theorem BreakAddress_panics_iff f blk :
  BreakAddress f blk = None <->
  BitmapBlocks f = x00 /\ 0 <= sub64 blk (u8 (PrefixBlocks f)).
Proof.
  unfold BreakAddress. cbv zeta.
  rewrite <- ChunkSizeInBlocks_zero.
  destruct (Z.ltb_spec (sub64 blk (u8 (PrefixBlocks f))) 0).
  - split; [discriminate | lia].
  - destruct (Z.eqb_spec (ChunkSizeInBlocks f) 0).
    + split; auto.
    + split; [discriminate | tauto].
Qed.

(** X22. Providers are consulted in the order they were added and the
    first mapper found wins: after [AddMemMapperProvider f] the lookup
    gives what it gave before whenever that was a mapper, and asks [f] only
    when every earlier provider returned [nil]. *)
Theorem getMemMapper_AddMemMapperProvider {S MM : Type}
    (f : Registry.provider S MM) (ps : list (Registry.provider S MM)) (s : S) :
  Registry.getMemMapper (Registry.AddMemMapperProvider f ps) s =
  match Registry.getMemMapper ps s with
  | Some mm => Some mm
  | None => f s
  end.
Proof.
  unfold Registry.AddMemMapperProvider.
  induction ps as [|g ps IH]; cbn.
  - destruct (f s); reflexivity.
  - destruct (g s); [reflexivity | exact IH].
Qed.

Section InitFacts.
Context {W : Type} {SM : StorageModel W}.

Ltac munfold :=
  cbv beta iota zeta delta
    [mbind mret M_bind M_ret bind ret get put lift panic
     allocator_at set_allocators fst snd].

Tactic Notation "step_call" "as" simple_intropattern(H) :=
  match goal with
  | |- context [call ?c ?f ?p] =>
      destruct (call_spec c f p) as H
  end.







End InitFacts.



(** X25. The configuration of [NewFormatConfig] (one bitmap block, one
    prefix block) is a layout without overflow exactly for
    [logBlockSize <= 59]: from 60 on the run size [1 << (logBlockSize+3)]
    no longer fits [int64]. *)
Theorem NewFormatConfig_layout_ok (logBlockSize : byte) :
  layout_ok (NewFormatConfig logBlockSize) <-> u8 logBlockSize <= 59.
Proof.
  pose proof (u8_range logBlockSize) as HB.
  unfold layout_ok, NewFormatConfig. cbn [BitmapBlocks BlockSizeLog].
  change (u8 x01) with 1. unfold max_int64.
  set (B := u8 logBlockSize) in *.
  split.
  - intros [_ H]. destruct (Z.le_gt_cases B 59) as [|Hbig]; [assumption|].
    assert (2 ^ 60 <= 2 ^ B) by (apply Z.pow_le_mono_r; lia). lia.
  - intros H. assert (0 < 2 ^ B) by (apply Z.pow_pos_nonneg; lia).
    assert (2 ^ B <= 2 ^ 59) by (apply Z.pow_le_mono_r; lia). lia.
Qed.
